(** * Scrape-Outstanding-Followups: the locate / poll / extract / persist logic

    A shallow embedding of [CallPotentialScraper.scrape_table] and
    [CallPotentialScraper.save_to_database] (scrape_followups.py) and the
    properties of its table locator, poll loop, row extractor and snapshot
    writer.

    Modelling conventions.
    - A Python [str] is a [string]; the characters are ASCII code points.
      On that alphabet [str.strip], [str.isdigit], [str.upper] and [int]
      are transcribed from CPython (bytes above 127 are caseless, neither
      blank nor digit).  [int] refuses a literal of more than 4300 digits,
      the default limit of CPython since 3.11.
    - [await]ed browser calls are reads of an explicit page model; what the
      code does to the outside world (sleeping, screenshots, the warning it
      prints for a skipped row, one marker per poll attempt) is recorded in
      a trace of events.
    - Every failure of [scrape_table] is a Python [ValueError]; the
      constructors of [error] name them after the message. *)

From Stdlib Require Import List String Ascii ZArith NArith Bool Lia Arith.
From Stdlib Require Import QArith Qround.
Import ListNotations.
Open Scope string_scope.
Open Scope Z_scope.

(** ** Python string primitives used by the scraper *)
Module PyStr.

Definition code (c : ascii) : N := N_of_ascii c.

Definition between (lo hi : N) (c : ascii) : bool :=
  ((lo <=? code c) && (code c <=? hi))%N.

(** [str.isspace] on ASCII: TAB..CR, FS..US and the space. *)
Definition is_space (c : ascii) : bool :=
  between 9 13 c || between 28 32 c.

(** The blanks that [int] skips around an ASCII literal (C [isspace]). *)
Definition is_c_space (c : ascii) : bool :=
  between 9 13 c || between 32 32 c.

Definition is_digit (c : ascii) : bool := between 48 57 c.

Definition digit_val (c : ascii) : Z := Z.of_N (code c - 48).

Definition upper_char (c : ascii) : ascii :=
  if between 97 122 c then ascii_of_N (code c - 32) else c.

(** [s.upper()] *)
Fixpoint upper (s : string) : string :=
  match s with
  | EmptyString => EmptyString
  | String c r => String (upper_char c) (upper r)
  end.

Fixpoint drop_while (p : ascii -> bool) (s : string) : string :=
  match s with
  | EmptyString => EmptyString
  | String c r => if p c then drop_while p r else s
  end.

Fixpoint drop_while_end (p : ascii -> bool) (s : string) : string :=
  match s with
  | EmptyString => EmptyString
  | String c r =>
      match drop_while_end p r with
      | EmptyString => if p c then EmptyString else String c EmptyString
      | r' => String c r'
      end
  end.

(** [s.strip()] *)
Definition strip (s : string) : string :=
  drop_while_end is_space (drop_while is_space s).

(** [s.replace(old, '')] for a one-character [old]. *)
Fixpoint remove_char (old : ascii) (s : string) : string :=
  match s with
  | EmptyString => EmptyString
  | String c r =>
      if Ascii.eqb c old then remove_char old r
      else String c (remove_char old r)
  end.

(** [s.replace(old, new)] for one-character [old] and [new]. *)
Fixpoint replace_char (old new : ascii) (s : string) : string :=
  match s with
  | EmptyString => EmptyString
  | String c r =>
      String (if Ascii.eqb c old then new else c) (replace_char old new r)
  end.

(** [needle in hay] *)
Fixpoint contains (needle hay : string) : bool :=
  match hay with
  | EmptyString => String.prefix needle EmptyString
  | String _ r => String.prefix needle hay || contains needle r
  end.

(** [sep.join(parts)] *)
Definition join (sep : string) (parts : list string) : string :=
  String.concat sep parts.

Fixpoint all_digits (s : string) : bool :=
  match s with
  | EmptyString => true
  | String c r => is_digit c && all_digits r
  end.

(** [s.isdigit()]: at least one character and all of them digits. *)
Definition isdigit (s : string) : bool :=
  match s with
  | EmptyString => false
  | _ => all_digits s
  end.

(** The digit part of an [int] literal: digits, with single underscores
    allowed between two digits.  [after_us] records that the previous
    character was an underscore. *)
Fixpoint int_digits (after_us : bool) (acc : Z) (s : string) : option Z :=
  match s with
  | EmptyString => if after_us then None else Some acc
  | String c r =>
      if is_digit c then int_digits false (10 * acc + digit_val c) r
      else if Ascii.eqb c "_" && negb after_us then int_digits true acc r
      else None
  end.

(** [sys.get_int_max_str_digits()]: the most digits [int] converts. *)
Definition max_str_digits : nat := 4300.

Fixpoint count_digits (s : string) : nat :=
  match s with
  | EmptyString => O
  | String c r => if is_digit c then S (count_digits r) else count_digits r
  end.

Definition int_unsigned (s : string) : option Z :=
  match s with
  | EmptyString => None
  | String c r =>
      if is_digit c then
        if (max_str_digits <? count_digits s)%nat then None
        else int_digits false (digit_val c) r
      else None
  end.

(** [int(s)]: [None] stands for [ValueError]. *)
Definition int (s : string) : option Z :=
  match drop_while_end is_c_space (drop_while is_c_space s) with
  | String "+" r => int_unsigned r
  | String "-" r => option_map Z.opp (int_unsigned r)
  | t => int_unsigned t
  end.

End PyStr.

(** ** The page as the scraper sees it *)
Module Dom.

(** A [td] element: its [inner_text()] and, when it has one, the
    [inner_text()] of its [p.location-name] child. *)
Record Cell := mkCell {
  inner_text : string;
  location_name : option string
}.

(** A [tr] element, given by its [td] cells ([query_selector_all('td')]);
    a pure header row has none. *)
Definition Row := list Cell.

(** What one poll attempt can read from the table. *)
Record Snapshot := mkSnapshot {
  tbody_tr : list Row;    (* query_selector_all('tbody tr') *)
  all_tr : list Row       (* query_selector_all('tr') *)
}.

(** A [table] element: the texts of its [th] cells, and its rows as they
    stand at each poll attempt (the body hydrates while the scraper
    waits). *)
Record Table := mkTable {
  th_texts : list string;
  rows_at : nat -> Snapshot
}.

(** A frame, given by its tables in document order. *)
Definition Frame := list Table.

Definition text_cell (s : string) : Cell := mkCell s None.

End Dom.

(** ** [scrape_table] *)
Module Scraper.
Import PyStr Dom.

(** What the scraper does to the outside world, in order. *)
Inductive event :=
| EvSleep (seconds : Z)           (* await asyncio.sleep(seconds) *)
| EvAttempt (attempt : nat)       (* the row query opening a poll attempt *)
| EvScreenshot (path : string)    (* await page.screenshot(path=...) *)
| EvWarn (location : string).     (* the warning printed for a skipped row *)

(** The [ValueError]s raised by [scrape_table]. *)
Inductive error :=
| TableNotFound                          (* "Could not find table with LOCATION ..." *)
| TableNotPopulated                      (* "Table did not populate with real data ..." *)
| MissingColumns (headers : list string) (* "Could not find required columns. Headers: ..." *)
| NoValidData                            (* "No valid data found in follow-ups table" *)
| IntConversionError.                    (* raised by int() at line 150, caught nowhere *)

(** Computations that log events and may raise. *)
Definition M (A : Type) : Type := (list event * (error + A))%type.

Definition ret {A} (a : A) : M A := ([], inr a).
Definition raise {A} (e : error) : M A := ([], inl e).
Definition emit (ev : event) : M unit := ([ev], inr tt).

Definition bind {A B} (m : M A) (f : A -> M B) : M B :=
  match m with
  | (tr, inl e) => (tr, inl e)
  | (tr, inr a) => let (tr', r) := f a in ((tr ++ tr')%list, r)
  end.

Notation "x <- m ;; k" := (bind m (fun x => k))
  (at level 61, m at next level, right associativity).
Notation "m ;; k" := (bind m (fun _ => k))
  (at level 61, right associativity).

Record ExtractedRecord := mkRecord {
  location : string;
  followups : Z;
  unprocessed : Z
}.

Record ColumnIndexMap := mkCols {
  location_idx : nat;
  followup_idx : nat;
  unprocessed_idx : nat
}.

(** *** Locating the table (lines 97-119) *)

(** [' '.join(header_texts).upper()] *)
Definition header_clean (header_texts : list string) : string :=
  upper (join " " header_texts).

Definition qualifies (t : Table) : bool :=
  match th_texts t with
  | [] => false
  | hs => contains "LOCATION" (header_clean hs)
          && contains "FOLLOW" (header_clean hs)
  end.

Fixpoint find_in_tables (tables : list Table) : option Table :=
  match tables with
  | [] => None
  | t :: rest => if qualifies t then Some t else find_in_tables rest
  end.

Fixpoint find_in_frames (frames : list Frame) : option Table :=
  match frames with
  | [] => None
  | f :: rest =>
      match find_in_tables f with
      | Some t => Some t
      | None => find_in_frames rest
      end
  end.

Definition locate (frames : list Frame) : M Table :=
  match find_in_frames frames with
  | Some t => ret t
  | None => emit (EvScreenshot "no_table_found.png") ;; raise TableNotFound
  end.

(** *** Waiting for the table to populate (lines 123-169) *)

Definition max_retries : nat := 20.

Definition has_td (r : Row) : bool :=
  match r with [] => false | _ => true end.

(** The rows of one attempt: those under [tbody], else every [tr] that
    has a [td]. *)
Definition collect_rows (s : Snapshot) : list Row :=
  match tbody_tr s with
  | [] => filter has_td (all_tr s)
  | rows => rows
  end.

(** Lines 148-150 for one cell: [cleaned.isdigit() and int(cleaned) > 0]
    with [cleaned = text.strip().replace(',', '')].  [None]: [int] raises
    a ValueError, and nothing in the loop catches it. *)
Definition cell_check (c : Cell) : option bool :=
  let cleaned := remove_char "," (strip (inner_text c)) in
  if isdigit cleaned then
    match int cleaned with
    | Some n => Some (0 <? n)
    | None => None
    end
  else Some false.

(** The cell is counted: its check is True. *)
Definition cell_nonzero (c : Cell) : bool :=
  match cell_check c with
  | Some true => true
  | _ => false
  end.

(** [for cell in cells[1:]]: the count so far, unless a check raises. *)
Fixpoint count_cells (cells : list Cell) (total : nat) : option nat :=
  match cells with
  | [] => Some total
  | c :: rest =>
      match cell_check c with
      | None => None
      | Some b => count_cells rest (if b then S total else total)
      end
  end.

(** [for check_row in rows]: a row needs more than one cell to be
    looked at. *)
Fixpoint count_rows (rows : list Row) (total : nat) : option nat :=
  match rows with
  | [] => Some total
  | cells :: rest =>
      match (if (1 <? List.length cells)%nat
             then count_cells (tl cells) total else Some total) with
      | None => None
      | Some total' => count_rows rest total'
      end
  end.

Definition total_nonzero (rows : list Row) : option nat := count_rows rows 0.

(** [max(10, int(len(rows) * 0.05))]; the truncated float product is the
    integer quotient by 20 for every row count a page can hold. *)
Definition threshold (rows : list Row) : nat :=
  Nat.max 10 (List.length rows / 20).

(** What one attempt makes of the rows it collected (lines 137-163):
    [Some true] leaves the loop, [Some false] waits for the next attempt,
    [None] is the ValueError of a check. *)
Definition check_rows (rows : list Row) : option bool :=
  if (0 <? List.length rows)%nat then
    match total_nonzero rows with
    | Some n => Some (threshold rows <=? n)%nat
    | None => None
    end
  else Some false.

(** The attempt deems the table populated. *)
Definition populated (rows : list Row) : bool :=
  match check_rows rows with
  | Some true => true
  | _ => false
  end.

(** The [for attempt in range(max_retries)] loop with its [else] branch;
    [remaining] counts the iterations left. *)
Fixpoint poll_from (t : Table) (remaining attempt : nat) : M (list Row) :=
  match remaining with
  | O => emit (EvScreenshot "empty_table_debug.png") ;; raise TableNotPopulated
  | S remaining' =>
      emit (EvAttempt attempt) ;;
      let rows := collect_rows (rows_at t attempt) in
      match check_rows rows with
      | None => raise IntConversionError
      | Some true => ret rows
      | Some false => emit (EvSleep 3) ;; poll_from t remaining' (S attempt)
      end
  end.

Definition poll (t : Table) : M (list Row) := poll_from t max_retries 0.

(** *** Resolving the columns (lines 177-195) *)

(** [h.replace('\n', ' ').strip().upper()] *)
Definition h_clean (h : string) : string :=
  upper (strip (replace_char "010" " " h)).

Definition is_location (h : string) : bool :=
  contains "LOCATION" (h_clean h).
Definition is_followup (h : string) : bool :=
  contains "FOLLOW-UP" (h_clean h) || contains "FOLLOW UP" (h_clean h).
Definition is_unprocessed (h : string) : bool :=
  contains "UNPROCESSED" (h_clean h).

(** The [for i, h in enumerate(header_texts)] loop: each matching header
    overwrites the index found so far. *)
Fixpoint scan_headers (i : nat) (hs : list string)
    (loc fol unp : option nat) : option nat * option nat * option nat :=
  match hs with
  | [] => (loc, fol, unp)
  | h :: rest =>
      scan_headers (S i) rest
        (if is_location h then Some i else loc)
        (if is_followup h then Some i else fol)
        (if is_unprocessed h then Some i else unp)
  end.

Definition resolve_columns (header_texts : list string) : M ColumnIndexMap :=
  match scan_headers 0 header_texts None None None with
  | (Some l, Some f, Some u) => ret (mkCols l f u)
  | _ => raise (MissingColumns header_texts)
  end.

(** *** Extracting the rows (lines 200-238) *)

(** [text.replace(',', '').replace(' ', '')] *)
Definition clean_number (text : string) : string :=
  remove_char " " (remove_char "," text).

Definition location_text (c : Cell) : string :=
  match location_name c with
  | Some p => strip p
  | None => strip (inner_text c)
  end.

Definition max_idx (cols : ColumnIndexMap) : nat :=
  Nat.max (Nat.max (location_idx cols) (followup_idx cols)) (unprocessed_idx cols).

(** One iteration of [for row in rows]: the record appended to [data], if
    any. *)
Definition extract_row (cols : ColumnIndexMap) (cells : Row)
    : M (option ExtractedRecord) :=
  if (max_idx cols <? List.length cells)%nat then
    match nth_error cells (location_idx cols),
          nth_error cells (followup_idx cols),
          nth_error cells (unprocessed_idx cols) with
    | Some lc, Some fc, Some uc =>
        let loc := location_text lc in
        let followups_clean := clean_number (strip (inner_text fc)) in
        let unprocessed_clean := clean_number (strip (inner_text uc)) in
        match int followups_clean, int unprocessed_clean with
        | Some f, Some u => ret (Some (mkRecord loc f u))
        | _, _ => emit (EvWarn loc) ;; ret None
        end
    | _, _, _ => ret None
    end
  else ret None.

Fixpoint extract_rows (cols : ColumnIndexMap) (rows : list Row)
    : M (list ExtractedRecord) :=
  match rows with
  | [] => ret []
  | r :: rest =>
      o <- extract_row cols r ;;
      data <- extract_rows cols rest ;;
      ret (match o with Some rec => rec :: data | None => data end)
  end.

(** Lines 171-238: from the header texts and the polled rows to the
    records. *)
Definition row_extractor (header_texts : list string) (rows : list Row)
    : M (list ExtractedRecord) :=
  cols <- resolve_columns header_texts ;;
  data <- extract_rows cols rows ;;
  match data with
  | [] => raise NoValidData
  | _ => ret data
  end.

(** The whole of [scrape_table]. *)
Definition scrape_table (frames : list Frame) : M (list ExtractedRecord) :=
  emit (EvSleep 3) ;;
  t <- locate frames ;;
  rows <- poll t ;;
  row_extractor (th_texts t) rows.

End Scraper.

(** ** [save_to_database] *)
Module Writer.
Import Scraper.

(** A row of [Testing.OutstandingFollowUpSnapshot].  [row_idx] is the
    position (from 1) of the record it was written for. *)
Record db_row := mkDbRow {
  row_idx : nat;
  row_id : Z;
  row_time : Z;
  row_location : string;
  row_followups : Z;
  row_unprocessed : Z;
  row_lcode : option string
}.

Inductive db_event :=
| DbTruncate              (* EXEC Testing.TruncateOutstandingFollowUpSnapshot *)
| DbExec (idx : nat)      (* EXEC Testing.GetOutstandingCPFollowUps for record idx *)
| DbCommit
| DbRollback.

(** The connection: the rows that are persisted, the rows written by the
    open transaction, and the calls made so far.  [commit] and [rollback]
    are taken to succeed: an exception raised by either is not
    modelled. *)
Record Conn := mkConn {
  committed : list db_row;
  pending : list db_row;
  db_log : list db_event
}.

Definition log (ev : db_event) (c : Conn) : Conn :=
  mkConn (committed c) (pending c) (db_log c ++ [ev]).

Definition commit (c : Conn) : Conn :=
  mkConn (committed c ++ pending c) [] (db_log c ++ [DbCommit]).

Definition rollback (c : Conn) : Conn :=
  mkConn (committed c) [] (db_log c ++ [DbRollback]).

(** What [cursor.execute] followed by [cursor.fetchone] gives for one
    record: an exception, no row, or the pair (InsertedID, Lcode). *)
Inductive proc_outcome :=
| ProcRaises
| ProcNoRow
| ProcRow (inserted_id : Z) (lcode : option string).

(** The counters and the report kept by the loop. *)
Record Tally := mkTally {
  inserted : nat;
  failed : nat;
  locations_without_lcode : list string
}.

Section Run.

(** [datetime.now()] at the start of the run. *)
Variable snapshot_time : Z.
(** Whether the truncate procedure succeeds. *)
Variable truncate_ok : bool.
(** The answer of the write procedure to the call made for the record at
    position [idx]. *)
Variable sp : nat -> ExtractedRecord -> proc_outcome.

(** Modelled from the spec: the write-one-record procedure, which is not
    part of the Python sources.  It takes (timestamp, location name,
    follow-up count, unprocessed count) and returns (assigned row id,
    resolved location code or absent); the row it returns is written in
    the open transaction. *)
Definition execute_proc (idx : nat) (r : ExtractedRecord) (c : Conn)
    : Conn * proc_outcome :=
  let c := log (DbExec idx) c in
  match sp idx r with
  | ProcRow id lcode =>
      (mkConn (committed c)
              (pending c ++ [mkDbRow idx id snapshot_time (location r)
                                     (followups r) (unprocessed r) lcode])
              (db_log c),
       ProcRow id lcode)
  | o => (c, o)
  end.

(** The body of [for idx, record in enumerate(data, 1)]. *)
Definition save_record (idx : nat) (r : ExtractedRecord) (st : Conn * Tally)
    : Conn * Tally :=
  let (c, t) := st in
  match execute_proc idx r c with
  | (c1, ProcRow _ None) =>
      (rollback c1,
       mkTally (inserted t) (S (failed t))
               (locations_without_lcode t ++ [location r]))
  | (c1, ProcRow _ (Some _)) =>
      (commit c1,
       mkTally (S (inserted t)) (failed t) (locations_without_lcode t))
  | (c1, ProcNoRow) => (c1, t)
  | (c1, ProcRaises) =>
      (rollback c1,
       mkTally (inserted t) (S (failed t)) (locations_without_lcode t))
  end.

Fixpoint save_records (idx : nat) (data : list ExtractedRecord)
    (st : Conn * Tally) : Conn * Tally :=
  match data with
  | [] => st
  | r :: rest => save_records (S idx) rest (save_record idx r st)
  end.

(** [save_to_database]: [None] when the truncate raises (the exception is
    re-raised and no record is written). *)
Definition save_to_database (c : Conn) (data : list ExtractedRecord)
    : Conn * option Tally :=
  let c := log DbTruncate c in
  if truncate_ok then
    let c := mkConn [] [] (db_log c ++ [DbCommit]) in
    let (c', t) := save_records 1 data (c, mkTally 0 0 []) in
    (c', Some t)
  else (c, None).

End Run.

End Writer.

(** ** The threshold as the specification words it *)
Module Spec.

(** [max(10, ceil(0.05 × rowCount))] *)
Definition threshold (row_count : nat) : Z :=
  Z.max 10 (Qceiling ((5 # 100) * inject_Z (Z.of_nat row_count))).

(** [text] contains the substring [needle]. *)
Definition occurs (needle text : string) : Prop :=
  exists before after, text = before ++ needle ++ after.

(** Header texts concatenated, nothing put between them. *)
Definition concatenated (texts : list string) : string :=
  String.concat EmptyString texts.

(** A header text newline-normalized, trimmed and upper-cased. *)
Definition normalised (h : string) : string :=
  PyStr.upper (PyStr.strip (PyStr.replace_char "010" " " h)).

(** At least one of the three markers is in no header. *)
Definition marker_unmatched (headers : list string) : Prop :=
  (forall h, In h headers -> ~ occurs "LOCATION" (normalised h))
  \/ (forall h, In h headers ->
        ~ occurs "FOLLOW-UP" (normalised h)
        /\ ~ occurs "FOLLOW UP" (normalised h))
  \/ (forall h, In h headers -> ~ occurs "UNPROCESSED" (normalised h)).

End Spec.

(** ** The notions the properties are stated with *)
Module Props.
Import PyStr Dom Scraper.

Definition unqualified (t : Table) : Prop := qualifies t = false.

(** [t] is the first qualifying table: frames in their order, tables of a
    frame in document order. *)
Definition first_match (frames : list Frame) (t : Table) : Prop :=
  exists fs1 ts1 ts2 fs2,
    frames = (fs1 ++ (ts1 ++ t :: ts2) :: fs2)%list
    /\ Forall (Forall unqualified) fs1
    /\ Forall unqualified ts1
    /\ qualifies t = true.

Definition no_match (frames : list Frame) : Prop :=
  Forall (Forall unqualified) frames.

(** The header texts of [t], joined by single spaces and upper-cased,
    contain both markers. *)
Definition marked (t : Table) : Prop :=
  Spec.occurs "LOCATION" (upper (join " " (th_texts t)))
  /\ Spec.occurs "FOLLOW" (upper (join " " (th_texts t))).

(** The same on the header texts concatenated with nothing between. *)
Definition marked_concatenated (t : Table) : Prop :=
  Spec.occurs "LOCATION" (upper (Spec.concatenated (th_texts t)))
  /\ Spec.occurs "FOLLOW" (upper (Spec.concatenated (th_texts t))).

(** [t] is the first marked table, frames in their order and the tables
    of a frame in document order. *)
Definition first_marked (frames : list Frame) (t : Table) : Prop :=
  exists fs1 ts1 ts2 fs2,
    frames = (fs1 ++ (ts1 ++ t :: ts2) :: fs2)%list
    /\ Forall (Forall (fun t' => ~ marked t')) fs1
    /\ Forall (fun t' => ~ marked t') ts1
    /\ marked t.

Definition none_marked (frames : list Frame) : Prop :=
  Forall (Forall (fun t' => ~ marked t')) frames.

(** The rows collected at poll attempt [j] (counted from 0). *)
Definition rows_of (t : Table) (j : nat) : list Row :=
  collect_rows (rows_at t j).

(** The trace of [n] unsuccessful attempts starting at attempt [a]. *)
Definition failed_attempts (a n : nat) : list event :=
  flat_map (fun j => [EvAttempt j; EvSleep 3]) (seq a n).

Definition is_attempt (ev : event) : bool :=
  match ev with EvAttempt _ => true | _ => false end.
Definition is_sleep (ev : event) : bool :=
  match ev with EvSleep _ => true | _ => false end.

Definition attempts (tr : list event) : nat := List.length (filter is_attempt tr).
Definition sleeps (tr : list event) : nat := List.length (filter is_sleep tr).

(** The data cells of the collected rows: every cell of every row but
    its first. *)
Definition data_cells (rows : list Row) : list Cell :=
  List.concat (map (@tl Cell) rows).

Definition nonzero_cells (rows : list Row) : nat :=
  List.length (filter cell_nonzero (data_cells rows)).

(** Some marker has no header carrying it. *)
Definition markers_unmatched (header_texts : list string) : Prop :=
  Forall (fun h => is_location h = false) header_texts
  \/ Forall (fun h => is_followup h = false) header_texts
  \/ Forall (fun h => is_unprocessed h = false) header_texts.

(** The index kept by the header loop for one marker: the last match, or
    what was there before. *)
Fixpoint last_match (p : string -> bool) (i : nat) (hs : list string)
    (init : option nat) : option nat :=
  match hs with
  | [] => init
  | h :: rest => last_match p (S i) rest (if p h then Some i else init)
  end.

(** Position [i] holds the last header that satisfies [p]. *)
Definition last_at (p : string -> bool) (hs : list string) (i : nat) : Prop :=
  exists h, nth_error hs i = Some h /\ p h = true
    /\ forall j h', (i < j)%nat -> nth_error hs j = Some h' -> p h' = false.

(** Record [r] was read from the cells of one row at the resolved
    columns. *)
Definition record_of_row (cols : ColumnIndexMap) (cells : Row)
    (r : ExtractedRecord) : Prop :=
  exists lc fc uc,
    nth_error cells (location_idx cols) = Some lc
    /\ nth_error cells (followup_idx cols) = Some fc
    /\ nth_error cells (unprocessed_idx cols) = Some uc
    /\ location r = location_text lc
    /\ int (clean_number (strip (inner_text fc))) = Some (followups r)
    /\ int (clean_number (strip (inner_text uc))) = Some (unprocessed r).

(** The same, written out: the location is the stripped text of the
    location-name element of the location cell when it has one, of the
    cell itself otherwise; each count is what [int] reads from the text of
    its cell once stripped and freed of commas and of spaces. *)
Definition read_from_row (cols : ColumnIndexMap) (cells : Row)
    (r : ExtractedRecord) : Prop :=
  exists lc fc uc,
    nth_error cells (location_idx cols) = Some lc
    /\ nth_error cells (followup_idx cols) = Some fc
    /\ nth_error cells (unprocessed_idx cols) = Some uc
    /\ location r
       = strip (match location_name lc with
                | Some name => name
                | None => inner_text lc
                end)
    /\ int (remove_char " " (remove_char "," (strip (inner_text fc))))
       = Some (followups r)
    /\ int (remove_char " " (remove_char "," (strip (inner_text uc))))
       = Some (unprocessed r).

(** An ExtractedRecord as the data model describes it. *)
Definition record_ok (r : ExtractedRecord) : Prop :=
  location r <> "" /\ strip (location r) = location r
  /\ 0 <= followups r /\ 0 <= unprocessed r.

End Props.

(** ** Concrete pages and rows *)
Module Examples.
Import Dom Scraper.

Definition row3 (a b c : string) : Row :=
  [text_cell a; text_cell b; text_cell c].

Definition site_headers : list string :=
  ["Location"; "Follow-Ups"; "Unprocessed"].

Definition site_rows : list Row :=
  [row3 "Site A" "10" "3"; row3 "Site B" "0" "0"; row3 "Site C" "N/A" "5"].

(** 201 rows, ten of them with one non-zero count. *)
Definition sparse_rows : list Row :=
  (repeat [text_cell "Site"; text_cell "1"] 10
   ++ repeat [text_cell "Site"; text_cell "0"] 191)%list.

Definition live_rows : list Row := repeat (row3 "Site" "4" "2") 5.

Definition zero_rows : list Row := repeat (row3 "Site" "0" "0") 5.

(** A table that shows zeros on its first two reads and live data from
    the third on. *)
Definition hydrating_table : Table :=
  mkTable site_headers
    (fun j => if (j <? 2)%nat then mkSnapshot zero_rows []
              else mkSnapshot live_rows []).

(** A table that never leaves its all-zero state. *)
Definition stale_table : Table :=
  mkTable site_headers (fun _ => mkSnapshot zero_rows []).

(** A count of 4301 digits, one more than [int] converts. *)
Definition long_count : string :=
  string_of_list_ascii (repeat "1"%char 4301).

(** Rows of zeros, one of which shows the long count. *)
Definition glitch_rows : list Row :=
  (row3 "Site" long_count "0" :: zero_rows)%list.

(** A table that shows the long count on its first read and live data
    from the second on. *)
Definition glitch_table : Table :=
  mkTable site_headers
    (fun j => if (j <? 1)%nat then mkSnapshot glitch_rows []
              else mkSnapshot live_rows []).

(** A table that shows the long count among zeros on every read. *)
Definition glitch_stale_table : Table :=
  mkTable site_headers (fun _ => mkSnapshot glitch_rows []).

(** A table whose markers only appear when its header texts are put
    together without a separator. *)
Definition split_marker_table : Table :=
  mkTable ["Loca"; "tion"; "Follow-Ups"] (fun _ => mkSnapshot live_rows []).

(** Headers naming the follow-ups column with a space. *)
Definition spaced_headers : list string :=
  ["Location"; "Follow Ups"; "Unprocessed"].

(** Headers without a follow-ups column. *)
Definition no_followup_headers : list string :=
  ["Location"; "Followers"; "Unprocessed"].

(** A row whose location cell has a location-name element, and whose
    counts are written with a comma and with spaces. *)
Definition named_rows : list Row :=
  [[mkCell "Site P (closed)" (Some "  Site P ");
    text_cell "1,234"; text_cell " 5 6 "]].

(** Headers without an UNPROCESSED column. *)
Definition short_headers : list string := ["Location"; "Follow-Ups"].



(** A row with an empty location cell and a negative count. *)
Definition odd_rows : list Row := [row3 "" "-5" "3"].

(** A row whose follow-up cell is no number. *)
Definition bad_rows : list Row := [row3 "Site C" "N/A" "5"].

End Examples.

(** ** The same for the writer, and a concrete run *)
Module WriterProps.
Import Scraper Writer.

(** [enumerate(data, idx)] *)
Definition indexed_from (idx : nat) (data : list ExtractedRecord)
    : list (nat * ExtractedRecord) :=
  combine (seq idx (List.length data)) data.

Definition indexed (data : list ExtractedRecord) := indexed_from 1 data.

Section Outcome.
Variable snapshot_time : Z.
Variable sp : nat -> ExtractedRecord -> proc_outcome.

(** The procedure returned a row whose location code is absent. *)
Definition unresolved (ir : nat * ExtractedRecord) : bool :=
  match sp (fst ir) (snd ir) with
  | ProcRow _ None => true
  | _ => false
  end.

(** The cursor raised, or the location code is absent. *)
Definition fails (ir : nat * ExtractedRecord) : bool :=
  match sp (fst ir) (snd ir) with
  | ProcRow _ None | ProcRaises => true
  | _ => false
  end.

Definition resolved (ir : nat * ExtractedRecord) : bool :=
  match sp (fst ir) (snd ir) with
  | ProcRow _ (Some _) => true
  | _ => false
  end.

(** The row a record leaves in the table, if any. *)
Definition persisted_row (ir : nat * ExtractedRecord) : list db_row :=
  match sp (fst ir) (snd ir) with
  | ProcRow id (Some l) =>
      [mkDbRow (fst ir) id snapshot_time (location (snd ir))
               (followups (snd ir)) (unprocessed (snd ir)) (Some l)]
  | _ => []
  end.

(** The calls made on the connection for one record. *)
Definition record_log (ir : nat * ExtractedRecord) : list db_event :=
  DbExec (fst ir)
  :: match sp (fst ir) (snd ir) with
     | ProcRow _ None => [DbRollback]
     | ProcRow _ (Some _) => [DbCommit]
     | ProcNoRow => []
     | ProcRaises => [DbRollback]
     end.

End Outcome.

(** A run of three records; the procedure knows no code for the second. *)
Definition three_records : list ExtractedRecord :=
  [mkRecord "Site A" 10 3; mkRecord "Nowhere" 4 1; mkRecord "Site B" 0 0].

Definition sp_example (idx : nat) (r : ExtractedRecord) : proc_outcome :=
  if String.eqb (location r) "Nowhere" then ProcRow (Z.of_nat idx) None
  else ProcRow (Z.of_nat idx) (Some "L001").

Definition fresh_conn : Conn := mkConn [] [] [].

End WriterProps.

(** ** The rest of the run: credentials, login, the summary, [run]

    The outside world of a run is a [World]: the keyring, the database,
    and how the browser and the page answer.  Of the awaited browser
    calls those of [login] may raise, a PlaywrightTimeout or another
    exception; [scrape_table] is the model above, whose reads of the page
    do not raise.  Closing the browser or the connection and taking a
    screenshot are taken not to raise. *)
Module Session.
Import PyStr Dom Scraper Writer.

(** Python truth of an optional string: [None] and [''] are false. *)
Definition truthy (o : option string) : bool :=
  match o with
  | Some (String _ _) => true
  | _ => false
  end.

(** The attributes of a [CallPotentialScraper] that the run sets. *)
Record Attrs := mkAttrs {
  username : option string;
  password : option string;
  db_connection : option Conn
}.

(** [__init__] *)
Definition init : Attrs := mkAttrs None None None.

(** What can end [run] with an exception. *)
Inductive failure :=
| CredentialsMissing           (* ValueError of _get_credentials *)
| DbCredentialsMissing         (* ValueError of _get_db_connection *)
| ConnectError                 (* pyodbc.connect raised *)
| BrowserError                 (* launch, new_context or new_page raised *)
| LoginTimeout                 (* PlaywrightTimeout during login *)
| LoginError                   (* another exception during login *)
| ScrapeError (e : error)      (* a ValueError of scrape_table *)
| SaveError.                   (* the truncate raised *)

(** The elements [login] acts on. *)
Inductive selector :=
| UsernameInput     (* input[name=username] *)
| PasswordInput     (* input[type=password] *)
| SubmitButton.     (* button[type=submit] *)

(** The awaited calls of [login], with their timeouts in milliseconds. *)
Inductive page_action :=
| Goto (url : string) (timeout : Z)
| WaitForSelector (s : selector) (timeout : Z)
| Fill (s : selector) (value : string)
| Click (s : selector)
| WaitForLoadState (timeout : Z)
| PageSleep (seconds : Z).

Inductive step_result := StepOk | StepTimeout | StepError.

Definition url : string := "https://sys.callpotential.com/ui/v2/dashboard".

(** The outside world of one run. *)
Record World := mkWorld {
  keyring : string -> string -> option string;  (* keyring.get_password *)
  connect_ok : bool;                            (* pyodbc.connect succeeds *)
  db0 : Conn;                                   (* the database as found *)
  launch_ok : bool;                             (* chromium.launch *)
  context_ok : bool;                            (* browser.new_context *)
  page_ok : bool;                               (* context.new_page *)
  reply : page_action -> step_result;           (* how the page answers *)
  frames : list Frame;                          (* page.frames after login *)
  snapshot_time : Z;
  truncate_ok : bool;
  sp : nat -> ExtractedRecord -> proc_outcome
}.

(** [_get_credentials] (lines 23-36): both attributes are set, then
    checked. *)
Definition get_credentials (w : World) (a : Attrs) : Attrs * (failure + unit) :=
  let a := mkAttrs (keyring w "CallPotential" "Username") (password a)
                   (db_connection a) in
  let a := mkAttrs (username a) (keyring w "CallPotential" "Password")
                   (db_connection a) in
  if negb (truthy (username a)) || negb (truthy (password a))
  then (a, inl CredentialsMissing)
  else (a, inr tt).

(** The f-string of [_get_db_connection]. *)
Definition conn_str (pwd : string) : string :=
  "DRIVER={ODBC Driver 17 for SQL Server};"
  ++ "SERVER=wpicsql01.westport.dom;"
  ++ "DATABASE=Operations;"
  ++ "UID=TroyAI;"
  ++ "PWD=" ++ pwd.

(** [_get_db_connection] (lines 38-55): the connection string it builds,
    when it gets that far, and the attributes after it. *)
Definition get_db_connection (w : World) (a : Attrs)
    : Attrs * option string * (failure + unit) :=
  match keyring w "AIDevSQLDatabase" "TroyAI" with
  | Some (String c r) =>
      let cs := conn_str (String c r) in
      if connect_ok w
      then (mkAttrs (username a) (password a) (Some (db0 w)), Some cs, inr tt)
      else (a, Some cs, inl ConnectError)
  | _ => (a, None, inl DbCredentialsMissing)
  end.

(** Awaited calls one after the other, up to the first that raises. *)
Fixpoint perform (answer : page_action -> step_result) (acts : list page_action)
    : list page_action * step_result :=
  match acts with
  | [] => ([], StepOk)
  | act :: rest =>
      match answer act with
      | StepOk => let (done, r) := perform answer rest in (act :: done, r)
      | r => ([act], r)
      end
  end.

(** The calls of [login] (lines 57-80). *)
Definition login_script (user pass : string) : list page_action :=
  [ Goto url 30000;
    WaitForSelector UsernameInput 10000;
    Fill UsernameInput user;
    Fill PasswordInput pass;
    Click SubmitButton;
    WaitForLoadState 30000;
    PageSleep 5 ].

Definition login (w : World) (user pass : string)
    : list page_action * step_result :=
  perform (reply w) (login_script user pass).

(** The lines of the warning that closes [save_to_database]
    (lines 311-316). *)
Inductive report_line :=
| Heading (count : nat)      (* "Warning: {count} location(s) without Lcode:" *)
| Name (loc : string)        (* "  - {loc}" *)
| More (count : nat).        (* "  ... and {count} more" *)

Definition lcode_warning (locs : list string) : list report_line :=
  match locs with
  | [] => []
  | _ =>
      (Heading (List.length locs)
       :: map Name (firstn 10 locs)
       ++ (if (10 <? List.length locs)%nat
           then [More (List.length locs - 10)] else []))%list
  end.

(** What [run] does, in order. *)
Inductive run_event :=
| RConnect (cs : string)          (* pyodbc.connect(cs) *)
| RLaunch                         (* p.chromium.launch(headless=True) *)
| RNewContext                     (* browser.new_context(...) *)
| RNewPage                        (* context.new_page() *)
| RPage (act : page_action)       (* a call of login *)
| RScrape (ev : event)            (* an event of scrape_table *)
| RSave                           (* save_to_database(data) *)
| RErrorScreenshot                (* page.screenshot(error_screenshot_<time>.png) *)
| RBrowserClose                   (* browser.close() *)
| RDbClose.                       (* self.db_connection.close() *)

(** The outcome of a run: what it did, the database it leaves, and its
    result. *)
Record Outcome := mkOutcome {
  trace : list run_event;
  database : Conn;
  result : failure + Tally
}.

(** The inner [try] of [run] (lines 339-357): login, scrape, save; a
    PlaywrightTimeout takes a screenshot before it is re-raised. *)
Definition with_page (w : World) (user pass : string) : Outcome :=
  match login w user pass with
  | (acts, StepTimeout) =>
      mkOutcome (map RPage acts ++ [RErrorScreenshot]) (db0 w) (inl LoginTimeout)
  | (acts, StepError) =>
      mkOutcome (map RPage acts) (db0 w) (inl LoginError)
  | (acts, StepOk) =>
      match scrape_table (frames w) with
      | (evs, inl e) =>
          mkOutcome (map RPage acts ++ map RScrape evs) (db0 w)
                    (inl (ScrapeError e))
      | (evs, inr data) =>
          let tr := (map RPage acts ++ map RScrape evs ++ [RSave])%list in
          match save_to_database (snapshot_time w) (truncate_ok w) (sp w)
                                 (db0 w) data with
          | (c, None) => mkOutcome tr c (inl SaveError)
          | (c, Some t) => mkOutcome tr c (inr t)
          end
      end
  end.

(** The [async with] block of [run] (lines 328-360): the browser is
    closed by the [finally] of the inner [try]. *)
Definition with_browser (w : World) (user pass : string) : Outcome :=
  if negb (launch_ok w) then mkOutcome [RLaunch] (db0 w) (inl BrowserError)
  else if negb (context_ok w)
  then mkOutcome [RLaunch; RNewContext] (db0 w) (inl BrowserError)
  else if negb (page_ok w)
  then mkOutcome [RLaunch; RNewContext; RNewPage] (db0 w) (inl BrowserError)
  else
    let o := with_page w user pass in
    mkOutcome ([RLaunch; RNewContext; RNewPage] ++ trace o ++ [RBrowserClose])
              (database o) (result o).

(** [run] (lines 318-365): the outer [finally] closes the connection when
    there is one. *)
Definition run (w : World) : Outcome :=
  match get_credentials w init with
  | (a, inl f) => mkOutcome [] (db0 w) (inl f)
  | (a, inr _) =>
      match get_db_connection w a with
      | (a', None, r) =>
          mkOutcome [] (db0 w)
                    (match r with inl f => inl f | inr _ => inl DbCredentialsMissing end)
      | (a', Some cs, inl f) => mkOutcome [RConnect cs] (db0 w) (inl f)
      | (a', Some cs, inr _) =>
          match username a', password a' with
          | Some user, Some pass =>
              let o := with_browser w user pass in
              mkOutcome (RConnect cs :: trace o ++
                         match db_connection a' with
                         | Some _ => [RDbClose]
                         | None => []
                         end)
                        (database o) (result o)
          | _, _ => mkOutcome [RConnect cs] (db0 w) (inl CredentialsMissing)
          end
      end
  end.

End Session.

(** ** Further notions *)
Module MoreProps.
Import PyStr Dom Scraper Props Writer WriterProps Session.

(** The seconds slept in a trace. *)
Fixpoint total_sleep (tr : list event) : Z :=
  match tr with
  | [] => 0
  | EvSleep s :: rest => s + total_sleep rest
  | _ :: rest => total_sleep rest
  end.

Definition is_warn (ev : event) : bool :=
  match ev with EvWarn _ => true | _ => false end.

(** Attempt [k] (from 0) is the first at which the table is populated,
    every attempt before it having counted its cells without reaching the
    threshold. *)
Definition first_populated (t : Table) (k : nat) : Prop :=
  (k < 20)%nat
  /\ (forall j, (j < k)%nat -> check_rows (rows_of t j) = Some false)
  /\ check_rows (rows_of t k) = Some true.

(** Each of the 20 attempts counts its cells without reaching the
    threshold. *)
Definition never_populated (t : Table) : Prop :=
  forall j, (j < 20)%nat -> check_rows (rows_of t j) = Some false.

(** Attempt [k] is the first at which a check raises, no attempt before
    it having been populated. *)
Definition first_raises (t : Table) (k : nat) : Prop :=
  (k < 20)%nat
  /\ (forall j, (j < k)%nat -> check_rows (rows_of t j) = Some false)
  /\ check_rows (rows_of t k) = None.

(** Character [c] does not occur in [s]. *)
Fixpoint lacks (c : ascii) (s : string) : bool :=
  match s with
  | EmptyString => true
  | String d r => negb (Ascii.eqb d c) && lacks c r
  end.

Fixpoint has_digit (s : string) : bool :=
  match s with
  | EmptyString => false
  | String c r => is_digit c || has_digit r
  end.

(** A row with a cell at every resolved column. *)
Definition wide_enough (cols : ColumnIndexMap) (cells : Row) : bool :=
  (max_idx cols <? List.length cells)%nat.

(** The procedure returned no row at all. *)
Definition no_row (sp : nat -> ExtractedRecord -> proc_outcome)
    (ir : nat * ExtractedRecord) : bool :=
  match sp (fst ir) (snd ir) with
  | ProcNoRow => true
  | _ => false
  end.

Definition is_name (l : report_line) : bool :=
  match l with Name _ => true | _ => false end.

Definition is_browser_close (ev : run_event) : bool :=
  match ev with RBrowserClose => true | _ => false end.

Definition is_db_close (ev : run_event) : bool :=
  match ev with RDbClose => true | _ => false end.

Definition is_fill (act : page_action) : bool :=
  match act with Fill _ _ => true | _ => false end.

(** The stored value of a keyring entry, [''] when there is none. *)
Definition stored (o : option string) : string :=
  match o with Some s => s | None => EmptyString end.

Definition user_of (w : World) : string :=
  stored (keyring w "CallPotential" "Username").
Definition pass_of (w : World) : string :=
  stored (keyring w "CallPotential" "Password").
Definition db_pass_of (w : World) : string :=
  stored (keyring w "AIDevSQLDatabase" "TroyAI").

(** Both dashboard credentials are stored and not empty. *)
Definition has_credentials (w : World) : bool :=
  truthy (keyring w "CallPotential" "Username")
  && truthy (keyring w "CallPotential" "Password").

Definition answers_ok (w : World) (act : page_action) : Prop :=
  reply w act = StepOk.

(** The connection is established: both logins are stored and the
    database accepts the connection. *)
Definition connects (w : World) : bool :=
  truthy (keyring w "CallPotential" "Username")
  && truthy (keyring w "CallPotential" "Password")
  && truthy (keyring w "AIDevSQLDatabase" "TroyAI")
  && connect_ok w.

(** The page is created. *)
Definition opens_page (w : World) : bool :=
  connects w && launch_ok w && context_ok w && page_ok w.

End MoreProps.

(** ** Concrete worlds *)
Module MoreExamples.
Import Dom Scraper Writer WriterProps Session Examples.

(** The headers of the example in lower and mixed case. *)
Definition mixed_headers : list string :=
  ["location"; "Follow-ups"; "UNPROCESSED"].

Definition hydrating_page : list Frame := [[]; [hydrating_table]].

Definition stored_keys (service name : string) : option string :=
  if String.eqb service "CallPotential" then
    if String.eqb name "Username" then Some "ops"
    else if String.eqb name "Password" then Some "secret"
    else None
  else if String.eqb service "AIDevSQLDatabase" then Some "dbpass"
  else None.

(** A world in which every stage succeeds. *)
Definition good_world : World :=
  mkWorld stored_keys true fresh_conn true true true (fun _ => StepOk)
          hydrating_page 1700000000 true sp_example.

(** The same world with an empty keyring. *)
Definition bare_world : World :=
  mkWorld (fun _ _ => None) true fresh_conn true true true (fun _ => StepOk)
          hydrating_page 1700000000 true sp_example.

(** A database holding one row of an earlier snapshot. *)
Definition old_conn : Conn :=
  mkConn [mkDbRow 1 7 1600000000 "Old" 1 1 (Some "L000")] [] [].

End MoreExamples.


(** ** [save_to_database] with a connection that can fail

    The same function (lines 240-316) without the assumption of [Writer]:
    here [commit()] and [rollback()] may raise.  A call that raises is
    logged and leaves the connection as it was.  An exception raised by a
    record's own calls is caught by the handler of lines 295-298, whose
    [rollback()] is the only call of the loop that is not protected: if it
    raises, the exception leaves the loop, the FATAL branch (lines
    303-305) re-raises it, and the counters are lost. *)
Module WriterFaults.
Import Scraper Writer.

(** Why [save_to_database] raised. *)
Inductive fatal :=
| TruncateFailed                 (* lines 249-257 *)
| RollbackFailed (idx : nat).    (* line 297, for the record at [idx] *)

Section Run.

Variable snapshot_time : Z.
Variable truncate_ok : bool.
Variable sp : nat -> ExtractedRecord -> proc_outcome.
(** Whether the [commit()] of line 289 succeeds for the record at [idx]. *)
Variable commit_ok : nat -> bool.
(** Whether the [rollback()] of line 283 succeeds for that record. *)
Variable skip_rollback_ok : nat -> bool.
(** Whether the [rollback()] of the handler, line 297, succeeds for it. *)
Variable handler_rollback_ok : nat -> bool.

(** [except Exception as e:] of lines 295-298. *)
Definition handler (idx : nat) (c : Conn) (t : Tally) : Conn * (fatal + Tally) :=
  if handler_rollback_ok idx then
    (rollback c,
     inr (mkTally (inserted t) (S (failed t)) (locations_without_lcode t)))
  else (log DbRollback c, inl (RollbackFailed idx)).

(** The body of [for idx, record in enumerate(data, 1)]. *)
Definition save_record (idx : nat) (r : ExtractedRecord) (c : Conn) (t : Tally)
    : Conn * (fatal + Tally) :=
  match execute_proc snapshot_time sp idx r c with
  | (c1, ProcRow _ None) =>
      (* the name is appended before the rollback of line 283 *)
      let t1 := mkTally (inserted t) (failed t)
                        (locations_without_lcode t ++ [location r]) in
      if skip_rollback_ok idx then
        (rollback c1,
         inr (mkTally (inserted t1) (S (failed t1)) (locations_without_lcode t1)))
      else handler idx (log DbRollback c1) t1
  | (c1, ProcRow _ (Some _)) =>
      (* inserted += 1 comes before the commit of line 289 *)
      let t1 := mkTally (S (inserted t)) (failed t) (locations_without_lcode t) in
      if commit_ok idx then (commit c1, inr t1)
      else handler idx (log DbCommit c1) t1
  | (c1, ProcNoRow) => (c1, inr t)
  | (c1, ProcRaises) => handler idx c1 t
  end.

Fixpoint save_records (idx : nat) (data : list ExtractedRecord)
    (c : Conn) (t : Tally) : Conn * (fatal + Tally) :=
  match data with
  | [] => (c, inr t)
  | r :: rest =>
      match save_record idx r c t with
      | (c1, inr t1) => save_records (S idx) rest c1 t1
      | (c1, inl f) => (c1, inl f)
      end
  end.

Definition save_to_database (c : Conn) (data : list ExtractedRecord)
    : Conn * (fatal + Tally) :=
  let c := log DbTruncate c in
  if truncate_ok then
    save_records 1 data (mkConn [] [] (db_log c ++ [DbCommit])) (mkTally 0 0 [])
  else (c, inl TruncateFailed).

End Run.

(** A connection on which no [commit()] and no [rollback()] raises. *)
Definition always (idx : nat) : bool := true.

(** The result of [Writer.save_to_database] read as one of this module. *)
Definition lift (res : Conn * option Tally) : Conn * (fatal + Tally) :=
  match res with
  | (c, Some t) => (c, inr t)
  | (c, None) => (c, inl TruncateFailed)
  end.

(** A call that raises for the second record and for no other. *)
Definition fails_at_second (idx : nat) : bool := negb (idx =? 2)%nat.

(** Every location is known to the procedure. *)
Definition sp_known (idx : nat) (r : ExtractedRecord) : proc_outcome :=
  ProcRow (Z.of_nat idx) (Some "L001").

(** The procedure raises on the second record. *)
Definition sp_second_raises (idx : nat) (r : ExtractedRecord) : proc_outcome :=
  if (idx =? 2)%nat then ProcRaises else ProcRow (Z.of_nat idx) (Some "L001").

End WriterFaults.

(** ** Facts about the string primitives *)
Section StringFacts.
Import PyStr.

Lemma drop_while_end_idem (p : ascii -> bool) (s : string) :
  drop_while_end p (drop_while_end p s) = drop_while_end p s.
Proof.
  induction s as [|c r IH]; simpl; [reflexivity|].
  destruct (drop_while_end p r) as [|d r'] eqn:E.
  - destruct (p c) eqn:Pc; simpl; [reflexivity|now rewrite Pc].
  - simpl in IH |- *. now rewrite IH.
Qed.

Lemma drop_while_head (p : ascii -> bool) (s : string) :
  drop_while p s = EmptyString
  \/ exists c r, drop_while p s = String c r /\ p c = false.
Proof.
  induction s as [|c r IH]; simpl; [now left|].
  destruct (p c) eqn:Pc; [exact IH|].
  right. now exists c, r.
Qed.

Lemma drop_while_end_head (p : ascii -> bool) (c : ascii) (r : string) :
  p c = false -> exists r', drop_while_end p (String c r) = String c r'.
Proof.
  intros Pc. simpl. destruct (drop_while_end p r) as [|d r'].
  - rewrite Pc. now exists EmptyString.
  - now exists (String d r').
Qed.

Lemma strip_idem (s : string) : strip (strip s) = strip s.
Proof.
  unfold strip.
  destruct (drop_while_head is_space s) as [E | (c & r & E & Pc)]; rewrite E.
  - reflexivity.
  - destruct (drop_while_end_head is_space c r Pc) as [r' E'].
    rewrite E'.
    assert (D : drop_while is_space (String c r') = String c r')
      by (simpl; now rewrite Pc).
    rewrite D, <- E'. apply drop_while_end_idem.
Qed.

(** A digit is no blank, no sign and no underscore. *)
Lemma digit_plain (c : ascii) :
  is_digit c = true ->
  is_c_space c = false /\ c <> "+"%char /\ c <> "-"%char /\ 0 <= digit_val c.
Proof.
  destruct c as [[] [] [] [] [] [] [] []]; vm_compute; intuition discriminate.
Qed.

Lemma int_digits_all (s : string) (acc : Z) :
  all_digits s = true -> 0 <= acc ->
  exists n, int_digits false acc s = Some n /\ 0 <= n.
Proof.
  revert acc. induction s as [|c r IH]; cbn [all_digits int_digits]; intros acc H Hacc.
  - now exists acc.
  - apply andb_true_iff in H as [Hc Hr]. rewrite Hc.
    apply IH; [exact Hr|]. destruct (digit_plain c Hc) as (_ & _ & _ & Hd). lia.
Qed.

Lemma drop_while_end_digits (s : string) :
  all_digits s = true -> drop_while_end is_c_space s = s.
Proof.
  induction s as [|c r IH]; simpl; [reflexivity|]. intros H.
  apply andb_true_iff in H as [Hc Hr]. rewrite (IH Hr).
  destruct (digit_plain c Hc) as (Hs & _). rewrite Hs. now destruct r.
Qed.

Lemma count_digits_all (s : string) :
  all_digits s = true -> count_digits s = String.length s.
Proof.
  induction s as [|c r IH]; cbn [all_digits count_digits String.length];
    [reflexivity|].
  intros H. apply andb_true_iff in H as [Hc Hr]. rewrite Hc. now rewrite IH.
Qed.

(** On a string of digits [int] takes no blank and no sign away. *)
Lemma int_of_digits (s : string) :
  isdigit s = true -> int s = int_unsigned s.
Proof.
  destruct s as [|c r]; [discriminate|]. intros H.
  change (all_digits (String c r) = true) in H.
  pose proof H as H'. cbn [all_digits] in H'.
  apply andb_true_iff in H' as [Hc Hr].
  destruct (digit_plain c Hc) as (Hs & Hp & Hm & Hd).
  unfold int.
  assert (E : drop_while is_c_space (String c r) = String c r)
    by (cbn [drop_while]; now rewrite Hs).
  rewrite E, (drop_while_end_digits _ H).
  destruct c as [[] [] [] [] [] [] [] []]; try reflexivity;
    first [now elim Hp | now elim Hm].
Qed.

(** A string of digits converts, to a number that is not negative, as
    long as it has no more digits than [int] accepts. *)
Lemma isdigit_int_short (s : string) :
  isdigit s = true -> (String.length s <= max_str_digits)%nat ->
  exists n, int s = Some n /\ 0 <= n.
Proof.
  intros H L. rewrite (int_of_digits s H).
  destruct s as [|c r]; [discriminate|].
  change (all_digits (String c r) = true) in H.
  pose proof H as H'. cbn [all_digits] in H'.
  apply andb_true_iff in H' as [Hc Hr].
  cbn [int_unsigned]. rewrite Hc, (count_digits_all _ H).
  assert (X : (max_str_digits <? String.length (String c r))%nat = false)
    by (apply Nat.ltb_ge; exact L).
  rewrite X. apply int_digits_all; [exact Hr|].
  now destruct (digit_plain c Hc) as (_ & _ & _ & Hd).
Qed.

(** With more digits than that, [int] raises. *)
Lemma isdigit_int_long (s : string) :
  isdigit s = true -> (max_str_digits < String.length s)%nat -> int s = None.
Proof.
  intros H L. rewrite (int_of_digits s H).
  destruct s as [|c r]; [discriminate|].
  change (all_digits (String c r) = true) in H.
  pose proof H as H'. cbn [all_digits] in H'.
  apply andb_true_iff in H' as [Hc Hr].
  cbn [int_unsigned]. rewrite Hc, (count_digits_all _ H).
  assert (X : (max_str_digits <? String.length (String c r))%nat = true)
    by (apply Nat.ltb_lt; exact L).
  now rewrite X.
Qed.

End StringFacts.

(** ** Substrings and letter case *)
Section Substrings.
Import PyStr Dom Scraper Props MoreProps.

Lemma append_assoc (a b c : string) : (a ++ b) ++ c = a ++ (b ++ c).
Proof. induction a as [|x a IH]; cbn; [reflexivity | now rewrite IH]. Qed.

Lemma append_nil_r (a : string) : a ++ EmptyString = a.
Proof. induction a as [|x a IH]; cbn; [reflexivity | now rewrite IH]. Qed.

Lemma prefix_iff (n h : string) :
  String.prefix n h = true <-> exists b, h = n ++ b.
Proof.
  revert h. induction n as [|x n IH]; intros h.
  - destruct h; cbn; split; eauto.
  - destruct h as [|y h]; cbn.
    + split; [discriminate|]. intros [b E]. discriminate.
    + destruct (ascii_dec x y) as [->|Hne].
      * rewrite IH. split; intros [b E]; exists b; congruence.
      * split; [discriminate|]. intros [b E]. congruence.
Qed.

(** [needle in hay] holds exactly when [hay] splits around [needle]. *)
Lemma contains_iff (n h : string) :
  contains n h = true <-> exists a b, h = a ++ n ++ b.
Proof.
  split.
  - induction h as [|c r IH]; cbn [contains].
    + intros H. apply prefix_iff in H as [b E]. now exists EmptyString, b.
    + intros H. apply orb_true_iff in H as [H | H].
      * apply prefix_iff in H as [b E]. now exists EmptyString, b.
      * destruct (IH H) as (a & b & ->). now exists (String c a), b.
  - intros (a & b & ->). induction a as [|c a IH].
    + cbn [append].
      assert (P : String.prefix n (n ++ b) = true)
        by (apply prefix_iff; now exists b).
      destruct (n ++ b); cbn [contains]; [exact P|]. now rewrite P.
    + cbn [append contains]. rewrite IH. apply orb_true_r.
Qed.

Lemma contains_inside (n a h b : string) :
  contains n h = true -> contains n (a ++ h ++ b) = true.
Proof.
  intros H. apply contains_iff in H as (x & y & ->). apply contains_iff.
  exists (a ++ x), (y ++ b). now rewrite !append_assoc.
Qed.

Lemma contains_longer (n m h : string) :
  contains (n ++ m) h = true -> contains n h = true.
Proof.
  intros H. apply contains_iff in H as (x & y & ->). apply contains_iff.
  exists x, (m ++ y). now rewrite !append_assoc.
Qed.

Lemma upper_app (a b : string) : upper (a ++ b) = upper a ++ upper b.
Proof. induction a as [|x a IH]; cbn; [reflexivity | now rewrite IH]. Qed.

Lemma drop_while_split (p : ascii -> bool) (s : string) :
  exists a, s = a ++ drop_while p s.
Proof.
  induction s as [|c r [a IH]]; cbn [drop_while]; [now exists EmptyString|].
  destruct (p c); [|now exists EmptyString].
  exists (String c a). cbn. now rewrite <- IH.
Qed.

Lemma drop_while_end_split (p : ascii -> bool) (s : string) :
  exists b, s = drop_while_end p s ++ b.
Proof.
  induction s as [|c r [b IH]]; cbn [drop_while_end]; [now exists EmptyString|].
  destruct (drop_while_end p r) as [|d r'].
  - destruct (p c).
    + exists (String c r). reflexivity.
    + exists b. cbn in *. now rewrite <- IH.
  - exists b. cbn in *. now rewrite <- IH.
Qed.

Lemma strip_split (s : string) : exists a b, s = a ++ strip s ++ b.
Proof.
  unfold strip. destruct (drop_while_split is_space s) as [a Ea].
  destruct (drop_while_end_split is_space (drop_while is_space s)) as [b Eb].
  exists a, b. now rewrite <- Eb.
Qed.

Lemma upper_char_replace (c : ascii) :
  upper_char (if Ascii.eqb c "010" then " " else c)
  = if Ascii.eqb (upper_char c) "010" then " "%char else upper_char c.
Proof. destruct c as [[] [] [] [] [] [] [] []]; reflexivity. Qed.

Lemma upper_replace (s : string) :
  upper (replace_char "010" " " s) = replace_char "010" " " (upper s).
Proof.
  induction s as [|c r IH]; cbn [upper replace_char]; [reflexivity|].
  now rewrite upper_char_replace, IH.
Qed.

Lemma upper_char_space (c : ascii) : is_space (upper_char c) = is_space c.
Proof. destruct c as [[] [] [] [] [] [] [] []]; reflexivity. Qed.

Lemma upper_char_idem (c : ascii) : upper_char (upper_char c) = upper_char c.
Proof. destruct c as [[] [] [] [] [] [] [] []]; reflexivity. Qed.

Lemma upper_idem (s : string) : upper (upper s) = upper s.
Proof.
  induction s as [|c r IH]; cbn [upper]; [reflexivity|].
  now rewrite upper_char_idem, IH.
Qed.

Lemma upper_drop_while (s : string) :
  upper (drop_while is_space s) = drop_while is_space (upper s).
Proof.
  induction s as [|c r IH]; cbn [upper drop_while]; [reflexivity|].
  rewrite upper_char_space. destruct (is_space c); [exact IH | reflexivity].
Qed.

Lemma upper_drop_while_end (s : string) :
  upper (drop_while_end is_space s) = drop_while_end is_space (upper s).
Proof.
  induction s as [|c r IH]; cbn [upper drop_while_end]; [reflexivity|].
  rewrite <- IH, upper_char_space.
  destruct (drop_while_end is_space r); cbn [upper];
    [destruct (is_space c)|]; reflexivity.
Qed.

Lemma upper_strip (s : string) : upper (strip s) = strip (upper s).
Proof. unfold strip. now rewrite upper_drop_while_end, upper_drop_while. Qed.

(** The cleaned header is a function of the upper-cased header. *)
Lemma h_clean_upper (h : string) :
  h_clean h = strip (replace_char "010" " " (upper h)).
Proof. unfold h_clean. now rewrite upper_strip, upper_replace. Qed.

Lemma upper_join (sep : string) (hs : list string) :
  upper (join sep hs) = join (upper sep) (map upper hs).
Proof.
  unfold join. induction hs as [|h hs IH]; [reflexivity|].
  destruct hs as [|h' hs]; [reflexivity|].
  change (String.concat sep (h :: h' :: hs))
    with (h ++ sep ++ String.concat sep (h' :: hs)).
  change (String.concat (upper sep) (map upper (h :: h' :: hs)))
    with (upper h ++ upper sep ++ String.concat (upper sep) (map upper (h' :: hs))).
  now rewrite !upper_app, IH.
Qed.

Lemma replace_char_split (o w : ascii) (u x y : string) :
  replace_char o w u = x ++ y ->
  exists x' y', u = x' ++ y'
                /\ replace_char o w x' = x /\ replace_char o w y' = y.
Proof.
  revert u. induction x as [|c x IH]; intros u E.
  - now exists EmptyString, u.
  - destruct u as [|d u]; [discriminate|]. cbn in E.
    injection E as Ec Er. destruct (IH _ Er) as (x' & y' & -> & Ex & Ey).
    exists (String d x'), y'. cbn. now rewrite Ec, Ex.
Qed.

Lemma replace_char_lacks (o w : ascii) (n' n : string) :
  replace_char o w n' = n -> lacks w n = true -> n' = n.
Proof.
  revert n. induction n' as [|c n' IH]; intros n E L.
  - exact E.
  - destruct n as [|d n]; [discriminate|]. cbn in E, L.
    injection E as Ec Er. apply andb_true_iff in L as [Ld Ln].
    rewrite (IH _ Er Ln). destruct (Ascii.eqb c o).
    + subst d. rewrite Ascii.eqb_refl in Ld. discriminate.
    + now subst d.
Qed.

(** Turning characters into [w] creates no occurrence of a needle
    without [w]. *)
Lemma contains_replace_char (o w : ascii) (n u : string) :
  lacks w n = true ->
  contains n (replace_char o w u) = true -> contains n u = true.
Proof.
  intros L H. apply contains_iff in H as (a & b & E).
  apply replace_char_split in E as (a' & r & -> & _ & E).
  apply replace_char_split in E as (n' & b' & -> & En & _).
  rewrite (replace_char_lacks _ _ _ _ En L).
  apply contains_iff. now exists a', b'.
Qed.

(** A needle without blanks found in the cleaned header is in the
    upper-cased header. *)
Lemma contains_h_clean (n h : string) :
  lacks " " n = true ->
  contains n (h_clean h) = true -> contains n (upper h) = true.
Proof.
  intros L H. rewrite h_clean_upper in H.
  apply (contains_replace_char "010" " " n _ L).
  destruct (strip_split (replace_char "010" " " (upper h))) as (a & b & E).
  rewrite E. now apply contains_inside.
Qed.

Lemma join_split (sep h : string) (hs : list string) :
  In h hs -> exists a b, join sep hs = a ++ h ++ b.
Proof.
  unfold join. induction hs as [|h0 hs IH]; [intros []|].
  intros [-> | Hin].
  - exists EmptyString. destruct hs as [|h' hs].
    + exists EmptyString. cbn [String.concat append].
      now rewrite append_nil_r.
    + now exists (sep ++ String.concat sep (h' :: hs)).
  - destruct hs as [|h' hs]; [destruct Hin|].
    destruct (IH Hin) as (a & b & E).
    exists (h0 ++ sep ++ a), b.
    change (String.concat sep (h0 :: h' :: hs))
      with (h0 ++ sep ++ String.concat sep (h' :: hs)).
    now rewrite E, !append_assoc.
Qed.

Lemma contains_header_clean (n h : string) (hs : list string) :
  In h hs -> contains n (upper h) = true ->
  contains n (header_clean hs) = true.
Proof.
  intros Hin H. unfold header_clean.
  destruct (join_split " " h hs Hin) as (a & b & E).
  rewrite E, !upper_app. now apply contains_inside.
Qed.

Lemma occurs_contains (needle text : string) :
  Spec.occurs needle text <-> contains needle text = true.
Proof. unfold Spec.occurs. symmetry. apply contains_iff. Qed.

End Substrings.

(** ** The table locator *)
Section Locator.
Import Dom Scraper Props.

Lemma find_in_tables_none (ts : list Table) :
  find_in_tables ts = None <-> Forall unqualified ts.
Proof.
  induction ts as [|t ts IH]; simpl.
  - split; auto.
  - destruct (qualifies t) eqn:Q.
    + split; [discriminate|]. intros H. inversion H; subst.
      unfold unqualified in *. congruence.
    + rewrite IH. split; intros H.
      * now constructor.
      * now inversion H.
Qed.

Lemma find_in_tables_some (ts : list Table) (t : Table) :
  find_in_tables ts = Some t <->
  exists ts1 ts2, ts = (ts1 ++ t :: ts2)%list
                  /\ Forall unqualified ts1 /\ qualifies t = true.
Proof.
  induction ts as [|t0 ts IH]; simpl.
  - split; [discriminate|]. intros (ts1 & ts2 & E & _).
    now destruct ts1.
  - destruct (qualifies t0) eqn:Q.
    + split.
      * intros [= <-]. now exists [], ts.
      * intros (ts1 & ts2 & E & F & Qt). destruct ts1 as [|t1 ts1].
        -- simpl in E. congruence.
        -- simpl in E. injection E as <- _. inversion F; subst.
           unfold unqualified in *. congruence.
    + rewrite IH. split.
      * intros (ts1 & ts2 & -> & F & Qt). exists (t0 :: ts1), ts2.
        repeat split; auto.
      * intros (ts1 & ts2 & E & F & Qt). destruct ts1 as [|t1 ts1].
        -- simpl in E. injection E as -> _. congruence.
        -- simpl in E. injection E as <- ->. inversion F; subst.
           now exists ts1, ts2.
Qed.

Lemma find_in_frames_none (fs : list Frame) :
  find_in_frames fs = None <-> no_match fs.
Proof.
  unfold no_match. induction fs as [|f fs IH]; simpl.
  - split; auto.
  - destruct (find_in_tables f) as [t|] eqn:E.
    + split; [discriminate|]. intros H. inversion H; subst.
      apply find_in_tables_none in H2. congruence.
    + apply find_in_tables_none in E. rewrite IH. split; intros H.
      * now constructor.
      * now inversion H.
Qed.

Lemma find_in_frames_some (fs : list Frame) (t : Table) :
  find_in_frames fs = Some t <-> first_match fs t.
Proof.
  unfold first_match. induction fs as [|f fs IH]; simpl.
  - split; [discriminate|]. intros (fs1 & ts1 & ts2 & fs2 & E & _).
    now destruct fs1.
  - destruct (find_in_tables f) as [t0|] eqn:E.
    + split.
      * intros [= <-]. apply find_in_tables_some in E as (ts1 & ts2 & -> & F & Q).
        now exists [], ts1, ts2, fs.
      * intros (fs1 & ts1 & ts2 & fs2 & E' & F1 & F & Q).
        destruct fs1 as [|f1 fs1]; simpl in E'.
        -- injection E' as -> _. rewrite <- E.
           apply find_in_tables_some. now exists ts1, ts2.
        -- injection E' as <- _. inversion F1; subst.
           apply find_in_tables_none in H1. congruence.
    + apply find_in_tables_none in E. rewrite IH. split.
      * intros (fs1 & ts1 & ts2 & fs2 & -> & F1 & F & Q).
        exists (f :: fs1), ts1, ts2, fs2. repeat split; auto.
      * intros (fs1 & ts1 & ts2 & fs2 & E' & F1 & F & Q).
        destruct fs1 as [|f1 fs1]; simpl in E'.
        -- injection E' as -> _. apply Forall_app in E as [_ E].
           inversion E; subst. unfold unqualified in *. congruence.
        -- injection E' as <- ->. inversion F1; subst.
           now exists fs1, ts1, ts2, fs2.
Qed.

Lemma qualifies_marked (t : Table) : qualifies t = true <-> marked t.
Proof.
  unfold marked, qualifies. rewrite !occurs_contains.
  fold (header_clean (th_texts t)).
  destruct (th_texts t) as [|h hs].
  - split; [discriminate|]. intros [H _]. discriminate H.
  - apply andb_true_iff.
Qed.

Lemma unqualified_unmarked (t : Table) : unqualified t <-> ~ marked t.
Proof.
  unfold unqualified. rewrite <- qualifies_marked.
  destruct (qualifies t); split; intros H; congruence.
Qed.

Lemma Forall_unmarked (ts : list Table) :
  Forall unqualified ts <-> Forall (fun t => ~ marked t) ts.
Proof.
  rewrite !Forall_forall. split; intros H t Ht; apply unqualified_unmarked;
    now apply H.
Qed.

Lemma no_match_none_marked (frames : list Frame) :
  no_match frames <-> none_marked frames.
Proof.
  unfold no_match, none_marked. rewrite !Forall_forall.
  split; intros H f Hf; apply Forall_unmarked; now apply H.
Qed.

Lemma first_match_first_marked (frames : list Frame) (t : Table) :
  first_match frames t <-> first_marked frames t.
Proof.
  assert (FF : forall fs : list Frame,
             Forall (Forall unqualified) fs
             <-> Forall (Forall (fun t' => ~ marked t')) fs).
  { intros fs. apply no_match_none_marked. }
  unfold first_match, first_marked.
  split; intros (fs1 & ts1 & ts2 & fs2 & E & F1 & F & Q);
    exists fs1, ts1, ts2, fs2; (split; [exact E|]);
    (split; [now apply FF|]); (split; [now apply Forall_unmarked|]);
    now apply qualifies_marked.
Qed.

Lemma locate_cases (frames : list Frame) :
  (exists t, first_match frames t /\ locate frames = ([], inr t))
  \/ (no_match frames
      /\ locate frames
         = ([EvScreenshot "no_table_found.png"], inl TableNotFound)).
Proof.
  unfold locate. destruct (find_in_frames frames) as [t|] eqn:E.
  - left. exists t. split; [now apply find_in_frames_some | reflexivity].
  - right. split; [now apply find_in_frames_none | reflexivity].
Qed.

(** C4, as the code has it.  The locator returns a table exactly when it
    is the first table, in frame order and then document order, whose [th]
    texts joined by single spaces and upper-cased contain both "LOCATION"
    and "FOLLOW"; it fails with TableNotFound, after the screenshot
    no_table_found.png, exactly when no table of any frame does; and one
    of the two always happens. *)
Theorem locate_first_match (frames : list Frame) :
  (forall t, locate frames = ([], inr t) <-> first_marked frames t)
  /\ (locate frames = ([EvScreenshot "no_table_found.png"], inl TableNotFound)
      <-> none_marked frames)
  /\ ((exists t, first_marked frames t) \/ none_marked frames).
Proof.
  destruct (locate_cases frames) as [(t0 & F & E) | [N E]]; rewrite E.
  - split; [|split].
    + intros t. rewrite <- first_match_first_marked. split.
      * intros [= <-]. exact F.
      * intros F'. apply find_in_frames_some in F, F'. congruence.
    + split; [discriminate|]. intros N. apply no_match_none_marked in N.
      apply find_in_frames_some in F. apply find_in_frames_none in N.
      congruence.
    + left. exists t0. now apply first_match_first_marked.
  - split; [|split].
    + intros t. rewrite <- first_match_first_marked. split; [discriminate|].
      intros F. apply find_in_frames_some in F.
      apply find_in_frames_none in N. congruence.
    + split; [intros _; now apply no_match_none_marked | reflexivity].
    + right. now apply no_match_none_marked.
Qed.

(** C4 fails as worded: the header texts "Loca", "tion", "Follow-Ups"
    contain both markers once concatenated, but the code joins them with
    spaces, finds no "LOCATION" and fails with TableNotFound. *)
Lemma locate_concatenated_counterexample :
  marked_concatenated Examples.split_marker_table
  /\ locate [[Examples.split_marker_table]]
     = ([EvScreenshot "no_table_found.png"], inl TableNotFound)
  /\ ~ (forall t, marked_concatenated t -> locate [[t]] = ([], inr t)).
Proof.
  assert (M : marked_concatenated Examples.split_marker_table).
  { split; apply occurs_contains; reflexivity. }
  split; [exact M|]. split; [reflexivity|].
  intros H. specialize (H _ M). discriminate H.
Qed.

End Locator.

(** ** The poll loop *)
Section Poller.
Import Dom Scraper Props MoreProps.

Lemma cell_nonzero_check (c : Cell) (b : bool) :
  cell_check c = Some b -> cell_nonzero c = b.
Proof. unfold cell_nonzero. intros ->. now destruct b. Qed.

(** The count of a row's cells: it stops at the first check that raises,
    and otherwise adds the cells that are counted. *)
Lemma count_cells_spec (cells : list Cell) (total : nat) :
  ((exists c, In c cells /\ cell_check c = None)
   /\ count_cells cells total = None)
  \/ ((forall c, In c cells -> cell_check c <> None)
      /\ count_cells cells total
         = Some (total + List.length (filter cell_nonzero cells))%nat).
Proof.
  revert total. induction cells as [|c cells IH]; intros total.
  - right. split; [intros c []|]. cbn. now rewrite Nat.add_0_r.
  - cbn [count_cells filter]. destruct (cell_check c) as [b|] eqn:E.
    + rewrite (cell_nonzero_check c b E).
      destruct (IH (if b then S total else total)) as [[(c' & I & R) X] | [N X]].
      * left. split; [|exact X]. exists c'. split; [now right | exact R].
      * right. split.
        -- intros c' [<- | I]; [congruence | now apply N].
        -- rewrite X. destruct b; cbn [List.length]; f_equal; lia.
    + left. split; [|reflexivity]. exists c. split; [now left | exact E].
Qed.

Lemma count_rows_spec (rows : list Row) (total : nat) :
  ((exists c, In c (data_cells rows) /\ cell_check c = None)
   /\ count_rows rows total = None)
  \/ ((forall c, In c (data_cells rows) -> cell_check c <> None)
      /\ count_rows rows total = Some (total + nonzero_cells rows)%nat).
Proof.
  unfold nonzero_cells, data_cells.
  revert total. induction rows as [|cells rows IH]; intros total.
  - right. split; [intros c []|]. cbn. now rewrite Nat.add_0_r.
  - cbn [count_rows map List.concat].
    assert (G : (if (1 <? List.length cells)%nat
                 then count_cells (tl cells) total else Some total)
                = count_cells (tl cells) total)
      by (destruct cells as [|c [|c' cells]]; reflexivity).
    rewrite G. clear G.
    destruct (count_cells_spec (tl cells) total) as [[(c & I & R) X] | [N X]];
      rewrite X.
    + left. split; [|reflexivity]. exists c. split; [|exact R].
      apply in_or_app. now left.
    + destruct (IH (total + List.length (filter cell_nonzero (tl cells)))%nat)
        as [[(c & I & R) Y] | [N' Y]]; rewrite Y.
      * left. split; [|reflexivity]. exists c. split; [|exact R].
        apply in_or_app. now right.
      * right. split.
        -- intros c I. apply in_app_or in I as [I | I]; [now apply N | now apply N'].
        -- rewrite filter_app, length_app. f_equal. lia.
Qed.

(** What an attempt makes of its rows: the ValueError of the first check
    that raises, or else whether the counted cells reach the threshold. *)
Lemma check_rows_spec (rows : list Row) :
  ((exists c, In c (data_cells rows) /\ cell_check c = None)
   /\ check_rows rows = None)
  \/ ((forall c, In c (data_cells rows) -> cell_check c <> None)
      /\ check_rows rows
         = Some (Nat.max 10 (List.length rows / 20) <=? nonzero_cells rows)%nat).
Proof.
  unfold check_rows, total_nonzero, threshold.
  destruct rows as [|r rows].
  - right. split; [intros c []|reflexivity].
  - change (0 <? List.length (r :: rows))%nat with true. cbv iota.
    destruct (count_rows_spec (r :: rows) 0) as [[R X] | [N X]]; rewrite X.
    + left. now split.
    + right. split; [exact N | reflexivity].
Qed.

Lemma populated_check (rows : list Row) :
  populated rows = true <-> check_rows rows = Some true.
Proof.
  unfold populated. destruct (check_rows rows) as [[|]|]; split;
    congruence.
Qed.

Lemma poll_from_exhausted (t : Table) (n a : nat) :
  (forall j, (j < n)%nat -> check_rows (rows_of t (a + j)) = Some false) ->
  poll_from t n a
  = ((failed_attempts a n ++ [EvScreenshot "empty_table_debug.png"])%list,
     inl TableNotPopulated).
Proof.
  revert a. induction n as [|n IH]; intros a H.
  - reflexivity.
  - cbn [poll_from]. fold (rows_of t a).
    assert (H0 : check_rows (rows_of t a) = Some false)
      by (rewrite <- (Nat.add_0_r a); apply H; lia).
    rewrite H0.
    assert (IH' := IH (S a)). rewrite IH'.
    + reflexivity.
    + intros j Hj. replace (S a + j)%nat with (a + S j)%nat by lia.
      apply H. lia.
Qed.

(** The loop up to the first attempt that does not just wait: it returns
    the rows when that attempt is populated, and lets the ValueError
    through when a check of it raises. *)
Lemma poll_from_stops (t : Table) (n a k : nat) :
  (k < n)%nat ->
  (forall j, (j < k)%nat -> check_rows (rows_of t (a + j)) = Some false) ->
  check_rows (rows_of t (a + k)) <> Some false ->
  poll_from t n a
  = ((failed_attempts a k ++ [EvAttempt (a + k)])%list,
     match check_rows (rows_of t (a + k)) with
     | None => inl IntConversionError
     | Some _ => inr (rows_of t (a + k))
     end).
Proof.
  revert a k. induction n as [|n IH]; intros a k Hk Hbefore Hat; [lia|].
  cbn [poll_from]. fold (rows_of t a). destruct k as [|k].
  - rewrite Nat.add_0_r in *.
    destruct (check_rows (rows_of t a)) as [[|]|]; [reflexivity | congruence
                                                    | reflexivity].
  - assert (H0 : check_rows (rows_of t a) = Some false)
      by (rewrite <- (Nat.add_0_r a); apply Hbefore; lia).
    rewrite H0. rewrite (IH (S a) k).
    + replace (S a + k)%nat with (a + S k)%nat by lia. reflexivity.
    + lia.
    + intros j Hj. replace (S a + j)%nat with (a + S j)%nat by lia.
      apply Hbefore. lia.
    + replace (S a + k)%nat with (a + S k)%nat by lia. exact Hat.
Qed.

Lemma attempts_failed (a n : nat) : attempts (failed_attempts a n) = n.
Proof.
  revert a. induction n as [|n IH]; intros a; [reflexivity|].
  unfold attempts, failed_attempts in *. simpl. now rewrite IH.
Qed.

Lemma sleeps_failed (a n : nat) : sleeps (failed_attempts a n) = n.
Proof.
  revert a. induction n as [|n IH]; intros a; [reflexivity|].
  unfold sleeps, failed_attempts in *. simpl. now rewrite IH.
Qed.

Lemma attempts_app (tr1 tr2 : list event) :
  attempts (tr1 ++ tr2) = (attempts tr1 + attempts tr2)%nat.
Proof. unfold attempts. now rewrite filter_app, length_app. Qed.

Lemma sleeps_app (tr1 tr2 : list event) :
  sleeps (tr1 ++ tr2) = (sleeps tr1 + sleeps tr2)%nat.
Proof. unfold sleeps. now rewrite filter_app, length_app. Qed.

(** Either some attempt is the first that does not just wait, or all of
    them wait. *)
Lemma poll_from_cases (t : Table) (n a : nat) :
  (exists k, (k < n)%nat
     /\ (forall j, (j < k)%nat -> check_rows (rows_of t (a + j)) = Some false)
     /\ check_rows (rows_of t (a + k)) <> Some false)
  \/ (forall j, (j < n)%nat -> check_rows (rows_of t (a + j)) = Some false).
Proof.
  induction n as [|n IH].
  - right. intros j Hj. lia.
  - destruct IH as [(k & Hk & Hb & Hat) | Hall].
    + left. exists k. repeat split; auto.
    + destruct (check_rows (rows_of t (a + n))) as [[|]|] eqn:E.
      * left. exists n. repeat split; auto. congruence.
      * right. intros j Hj. destruct (Nat.eq_dec j n) as [->|Hne]; auto.
        apply Hall. lia.
      * left. exists n. repeat split; auto. congruence.
Qed.

(** The three ways the poll loop can end. *)
Lemma poll_cases (t : Table) :
  (never_populated t
   /\ poll t = ((failed_attempts 0 20 ++ [EvScreenshot "empty_table_debug.png"])%list,
                inl TableNotPopulated))
  \/ (exists k, first_populated t k
        /\ poll t = ((failed_attempts 0 k ++ [EvAttempt k])%list,
                     inr (rows_of t k)))
  \/ (exists k, first_raises t k
        /\ poll t = ((failed_attempts 0 k ++ [EvAttempt k])%list,
                     inl IntConversionError)).
Proof.
  unfold poll, max_retries, never_populated, first_populated, first_raises.
  destruct (poll_from_cases t 20 0) as [(k & Hk & Hb & Hat) | Hall].
  - pose proof (poll_from_stops t 20 0 k Hk Hb Hat) as P. cbn [Nat.add] in *.
    right. destruct (check_rows (rows_of t k)) as [[|]|] eqn:E.
    + left. exists k. repeat split; auto.
    + congruence.
    + right. exists k. repeat split; auto.
  - left. split; [exact Hall|]. now apply poll_from_exhausted.
Qed.

Lemma first_stop_unique (t : Table) (k k' : nat) :
  (forall j, (j < k)%nat -> check_rows (rows_of t j) = Some false) ->
  check_rows (rows_of t k) <> Some false ->
  (forall j, (j < k')%nat -> check_rows (rows_of t j) = Some false) ->
  check_rows (rows_of t k') <> Some false ->
  k = k'.
Proof.
  intros Hb Hat Hb' Hat'.
  destruct (Nat.lt_trichotomy k k') as [Hlt | [Heq | Hgt]]; auto.
  - now rewrite (Hb' k Hlt) in Hat.
  - now rewrite (Hb k' Hgt) in Hat'.
Qed.

End Poller.

(** ** The populated check and the retry budget *)
Section PollerProperties.
Import Dom Scraper Props MoreProps.

(** C5 does not hold of the code.  On a table whose first read has a
    single data cell other than "0", a count of 4301 digits, and whose
    second read is live, the table is first populated on the second
    attempt; but the check of the long count raises on the first attempt
    ([isdigit] accepts it, [int] refuses it), so the loop ends there with
    that ValueError instead of returning on the second. *)
Theorem poll_raises_before_populated :
  List.length (filter (fun c => negb (String.eqb (inner_text c) "0"))
                      (data_cells (rows_of Examples.glitch_table 0))) = 1%nat
  /\ cell_check (text_cell Examples.long_count) = None
  /\ populated (rows_of Examples.glitch_table 0) = false
  /\ populated (rows_of Examples.glitch_table 1) = true
  /\ poll Examples.glitch_table = ([EvAttempt 0], inl IntConversionError).
Proof. repeat split; vm_compute; reflexivity. Qed.

(** C6 does not hold of the code.  A table that shows the same long
    count among zeros on every read is populated on no attempt; the loop
    does not make its 20 attempts and fail with TableNotPopulated, it ends
    on the first attempt with the ValueError of the check, without sleep
    or screenshot. *)
Theorem poll_raises_within_budget :
  (forall j, populated (rows_of Examples.glitch_stale_table j) = false)
  /\ poll Examples.glitch_stale_table = ([EvAttempt 0], inl IntConversionError)
  /\ attempts (fst (poll Examples.glitch_stale_table)) = 1%nat
  /\ sleeps (fst (poll Examples.glitch_stale_table)) = 0%nat.
Proof.
  split; [intros j|repeat split]; vm_compute; reflexivity.
Qed.

(** X19. If each attempt before the [k]-th (counted from 1, [k <= 20])
    counts its cells without reaching the threshold and the [k]-th reaches
    it, the poll loop returns the rows of that attempt after exactly [k]
    attempts and [k - 1] sleeps, the successful attempt being the last
    thing it does. *)
Theorem poll_returns_at_first_populated (t : Table) (k : nat) :
  (1 <= k <= 20)%nat ->
  (forall j, (j < k - 1)%nat -> check_rows (rows_of t j) = Some false) ->
  check_rows (rows_of t (k - 1)) = Some true ->
  exists tr,
    poll t = (tr, inr (rows_of t (k - 1)))
    /\ tr = (failed_attempts 0 (k - 1) ++ [EvAttempt (k - 1)])%list
    /\ attempts tr = k
    /\ sleeps tr = (k - 1)%nat
    /\ last tr (EvSleep 3) = EvAttempt (k - 1).
Proof.
  intros Hk Hbefore Hat. eexists. split; [|split; [reflexivity|]].
  - unfold poll, max_retries.
    rewrite (poll_from_stops t 20 0 (k - 1)); cbn [Nat.add]; auto;
      [now rewrite Hat | lia | congruence].
  - rewrite attempts_app, sleeps_app, attempts_failed, sleeps_failed.
    rewrite last_last. cbn. repeat split; lia.
Qed.

(** X20. The poll loop fails with TableNotPopulated exactly when each of
    the 20 attempts counts its cells without reaching the threshold; it
    has then made exactly 20 attempts, each followed by a sleep of 3, and
    taken the screenshot empty_table_debug.png last. *)
Theorem poll_exhausts_budget (t : Table) :
  ((forall j, (j < 20)%nat -> check_rows (rows_of t j) = Some false)
   <-> snd (poll t) = inl TableNotPopulated)
  /\ (snd (poll t) = inl TableNotPopulated ->
        fst (poll t)
        = (failed_attempts 0 20 ++ [EvScreenshot "empty_table_debug.png"])%list
        /\ attempts (fst (poll t)) = 20%nat
        /\ sleeps (fst (poll t)) = 20%nat).
Proof.
  destruct (poll_cases t) as [[N P] | [(k & (Hk & Hb & Hat) & P)
                                      | (k & (Hk & Hb & Hat) & P)]];
    rewrite P; cbn [fst snd].
  - split; [split; auto|]. intros _.
    rewrite attempts_app, sleeps_app, attempts_failed, sleeps_failed.
    repeat split; reflexivity.
  - split; [split|]; try discriminate.
    intros H. specialize (H k Hk). congruence.
  - split; [split|]; try discriminate.
    intros H. specialize (H k Hk). congruence.
Qed.

(** C1, as the code has it.  On an attempt whose count completes, the
    table is deemed populated exactly when the number of data cells (the
    cells of each collected row after its first) that are counted is at
    least max(10, floor(rowCount / 20)); a cell is counted when its text,
    stripped and then freed of commas, is a non-empty string of digits
    that [int] converts to a value greater than zero.  The count
    completes whenever no check of a data cell raises, and an empty row
    list is never populated. *)
Theorem populated_iff_floor_threshold (rows : list Row) :
  (forall b,
      check_rows rows = Some b ->
      (b = true
       <-> (Nat.max 10 (List.length rows / 20) <= nonzero_cells rows)%nat)
      /\ populated rows = b)
  /\ (forall c,
        cell_nonzero c = true
        <-> PyStr.isdigit (PyStr.remove_char "," (PyStr.strip (inner_text c))) = true
            /\ exists n, PyStr.int (PyStr.remove_char "," (PyStr.strip (inner_text c)))
                         = Some n /\ 0 < n)
  /\ ((forall c, In c (data_cells rows) -> cell_check c <> None) ->
      exists b, check_rows rows = Some b)
  /\ (rows = [] -> check_rows rows = Some false).
Proof.
  split; [|split; [|split]].
  - intros b E. split.
    + destruct (check_rows_spec rows) as [[_ X] | [_ X]]; rewrite X in E;
        [discriminate|].
      injection E as <-. apply Nat.leb_le.
    + unfold populated. rewrite E. now destruct b.
  - intros c. unfold cell_nonzero, cell_check. cbv zeta.
    set (cleaned := PyStr.remove_char "," (PyStr.strip (inner_text c))).
    destruct (PyStr.isdigit cleaned).
    + destruct (PyStr.int cleaned) as [n|].
      * destruct (0 <? n) eqn:P.
        -- split; [|reflexivity]. intros _. split; [reflexivity|].
           exists n. split; [reflexivity | now apply Z.ltb_lt].
        -- split; [discriminate|]. intros [_ (m & [= <-] & Hm)].
           apply Z.ltb_lt in Hm. congruence.
      * split; [discriminate|]. intros [_ (m & H & _)]. discriminate.
    + split; [discriminate|]. intros [H _]. discriminate.
  - intros N. destruct (check_rows_spec rows) as [[(c & I & R) _] | [_ X]].
    + destruct (N c I R).
    + eexists. exact X.
  - intros ->. reflexivity.
Qed.

(** C1 fails as worded: with 201 rows and ten non-zero cells the code
    deems the table populated, while ceil(0.05 × 201) = 11. *)
Lemma populated_ceil_counterexample :
  List.length Examples.sparse_rows = 201%nat
  /\ nonzero_cells Examples.sparse_rows = 10%nat
  /\ Spec.threshold 201 = 11
  /\ populated Examples.sparse_rows = true
  /\ ~ (forall rows : list Row,
          rows <> [] ->
          (populated rows = true
           <-> Spec.threshold (List.length rows) <= Z.of_nat (nonzero_cells rows))).
Proof.
  assert (P : populated Examples.sparse_rows = true) by (vm_compute; reflexivity).
  repeat (split; [vm_compute; reflexivity|]).
  intros H.
  assert (N : Examples.sparse_rows <> []) by discriminate.
  destruct (H Examples.sparse_rows N) as [H1 _].
  apply H1 in P. vm_compute in P. apply P. reflexivity.
Qed.

(** X21. On a cell whose text is ASCII, the check raises exactly when
    the text, stripped and freed of commas, is a string of more than 4300
    digits: [isdigit] accepts it and [int] refuses to convert it. *)
Theorem cell_check_raises_iff (c : Cell) :
  cell_check c = None
  <-> PyStr.isdigit (PyStr.remove_char "," (PyStr.strip (inner_text c))) = true
      /\ (4300 < String.length
                   (PyStr.remove_char "," (PyStr.strip (inner_text c))))%nat.
Proof.
  unfold cell_check. cbv zeta.
  set (cleaned := PyStr.remove_char "," (PyStr.strip (inner_text c))).
  destruct (PyStr.isdigit cleaned) eqn:D.
  - destruct (Nat.le_gt_cases (String.length cleaned) PyStr.max_str_digits)
      as [L | L].
    + destruct (isdigit_int_short cleaned D L) as (n & E & _). rewrite E.
      split; [discriminate|]. intros [_ H]. unfold PyStr.max_str_digits in L. lia.
    + rewrite (isdigit_int_long cleaned D L). split; [|reflexivity].
      intros _. split; [reflexivity | exact L].
  - split; [discriminate|]. intros [H _]. discriminate.
Qed.

End PollerProperties.

(** ** Column resolution *)
Section Columns.
Import Dom Scraper Props.

Lemma scan_headers_split (hs : list string) (i : nat) (l f u : option nat) :
  scan_headers i hs l f u
  = (last_match is_location i hs l,
     last_match is_followup i hs f,
     last_match is_unprocessed i hs u).
Proof.
  revert i l f u. induction hs as [|h hs IH]; intros i l f u; simpl.
  - reflexivity.
  - apply IH.
Qed.

Lemma last_match_none (p : string -> bool) (hs : list string) (i : nat)
    (init : option nat) :
  last_match p i hs init = None
  <-> init = None /\ Forall (fun h => p h = false) hs.
Proof.
  revert i init. induction hs as [|h hs IH]; intros i init; simpl.
  - split; [auto | tauto].
  - rewrite IH. destruct (p h) eqn:P; split.
    + intros [? _]. discriminate.
    + intros [_ F]. inversion F; subst. congruence.
    + intros [-> F]. auto.
    + intros [-> F]. inversion F; subst. auto.
Qed.

Lemma last_match_init (p : string -> bool) (hs : list string) (i : nat)
    (init : option nat) :
  Forall (fun h => p h = false) hs -> last_match p i hs init = init.
Proof.
  revert i init. induction hs as [|h hs IH]; intros i init F; simpl.
  - reflexivity.
  - inversion F; subst. rewrite H1. now apply IH.
Qed.

Lemma last_at_cons (p : string -> bool) (h : string) (hs : list string)
    (k : nat) :
  last_at p (h :: hs) (S k) <-> last_at p hs k.
Proof.
  unfold last_at. split; intros (x & N & P & L); exists x; simpl in *;
    repeat split; auto.
  - intros j h' Hj Hn. apply (L (S j) h'); [lia | exact Hn].
  - intros [|j] h' Hj Hn; [lia|]. apply (L j h'); [lia | exact Hn].
Qed.

Lemma last_at_head (p : string -> bool) (h : string) (hs : list string) :
  last_at p (h :: hs) 0 <-> p h = true /\ Forall (fun x => p x = false) hs.
Proof.
  unfold last_at. split.
  - intros (x & [= <-] & P & L). split; [exact P|].
    apply Forall_forall. intros y Hy.
    apply In_nth_error in Hy as [j Hj]. apply (L (S j) y); [lia | exact Hj].
  - intros [P F]. exists h. repeat split; auto.
    intros [|j] h' Hj Hn; [lia|]. simpl in Hn.
    apply nth_error_In in Hn. rewrite Forall_forall in F. now apply F.
Qed.

(** The index kept for a marker is that of its last matching header. *)
Lemma last_match_some (p : string -> bool) (hs : list string) (i k : nat) :
  last_match p i hs None = Some k
  <-> exists d, k = (i + d)%nat /\ last_at p hs d.
Proof.
  revert i k. induction hs as [|h hs IH]; intros i k; simpl.
  - split; [discriminate|]. intros (d & _ & x & N & _). now destruct d.
  - destruct (p h) eqn:P.
    + destruct (last_match p (S i) hs None) as [k'|] eqn:E.
      * assert (E' : last_match p (S i) hs (Some i) = Some k').
        { clear IH. revert E. generalize (S i) as m.
          induction hs as [|y hs IHh]; intros m; simpl; [discriminate|].
          destruct (p y); [auto|]. intros E. apply IHh in E. exact E. }
        rewrite E'. apply IH in E as (d & -> & L). split.
        -- intros [= <-]. exists (S d). split; [lia|]. now apply last_at_cons.
        -- intros (d' & -> & L'). destruct d' as [|d'].
           ++ apply last_at_head in L' as [_ F]. destruct L as (x & N & Px & _).
              apply nth_error_In in N. rewrite Forall_forall in F.
              rewrite (F x N) in Px. discriminate.
           ++ apply last_at_cons in L'.
              assert (d' = d); [|subst; f_equal; lia].
              destruct L as (x & N & Px & Lx), L' as (y & N' & Py & Ly).
              destruct (Nat.lt_trichotomy d' d) as [Hlt | [Heq | Hgt]]; auto.
              ** rewrite (Ly d x Hlt N) in Px. discriminate.
              ** rewrite (Lx d' y Hgt N') in Py. discriminate.
      * apply last_match_none in E as [_ F].
        rewrite (last_match_init p hs (S i) (Some i) F). split.
        -- intros [= <-]. exists 0%nat. split; [lia|]. now apply last_at_head.
        -- intros (d & -> & L). destruct d as [|d]; [f_equal; lia|].
           apply last_at_cons in L as (x & N & Px & _).
           apply nth_error_In in N. rewrite Forall_forall in F.
           rewrite (F x N) in Px. discriminate.
    + rewrite IH. split.
      * intros (d & -> & L). exists (S d). split; [lia|]. now apply last_at_cons.
      * intros (d & -> & L). destruct d as [|d].
        -- apply last_at_head in L as [Ph _]. congruence.
        -- apply last_at_cons in L. exists d. split; [lia | exact L].
Qed.

Lemma resolve_columns_ok (hs : list string) (cols : ColumnIndexMap) (tr : list event) :
  resolve_columns hs = (tr, inr cols)
  <-> tr = []
      /\ last_at is_location hs (location_idx cols)
      /\ last_at is_followup hs (followup_idx cols)
      /\ last_at is_unprocessed hs (unprocessed_idx cols).
Proof.
  unfold resolve_columns. rewrite scan_headers_split.
  destruct (last_match is_location 0 hs None) as [l|] eqn:El;
  destruct (last_match is_followup 0 hs None) as [f|] eqn:Ef;
  destruct (last_match is_unprocessed 0 hs None) as [u|] eqn:Eu;
  unfold ret, raise;
  try (split; [discriminate|]; intros (_ & Ll & Lf & Lu);
       assert (X1 : last_match is_location 0 hs None = Some (location_idx cols))
         by (apply last_match_some; eexists; split; [reflexivity | exact Ll]);
       assert (X2 : last_match is_followup 0 hs None = Some (followup_idx cols))
         by (apply last_match_some; eexists; split; [reflexivity | exact Lf]);
       assert (X3 : last_match is_unprocessed 0 hs None = Some (unprocessed_idx cols))
         by (apply last_match_some; eexists; split; [reflexivity | exact Lu]);
       congruence).
  apply last_match_some in El as (dl & -> & Ll).
  apply last_match_some in Ef as (df & -> & Lf).
  apply last_match_some in Eu as (du & -> & Lu).
  simpl. split.
  - intros [= <- <-]. simpl. auto.
  - intros (-> & Ll' & Lf' & Lu'). destruct cols as [l f u]. simpl in *.
    assert (A : forall p a b, last_at p hs a -> last_at p hs b -> a = b).
    { intros p a b (x & N & Px & Lx) (y & N' & Py & Ly).
      destruct (Nat.lt_trichotomy a b) as [Hlt | [Heq | Hgt]]; auto.
      - rewrite (Lx b y Hlt N') in Py. discriminate.
      - rewrite (Ly a x Hgt N) in Px. discriminate. }
    rewrite (A _ _ _ Ll Ll'), (A _ _ _ Lf Lf'), (A _ _ _ Lu Lu'). reflexivity.
Qed.

Lemma resolve_columns_fails (hs : list string) :
  markers_unmatched hs <-> resolve_columns hs = ([], inl (MissingColumns hs)).
Proof.
  unfold resolve_columns, markers_unmatched. rewrite scan_headers_split.
  pose proof (last_match_none is_location hs 0 None) as Nl.
  pose proof (last_match_none is_followup hs 0 None) as Nf.
  pose proof (last_match_none is_unprocessed hs 0 None) as Nu.
  destruct (last_match is_location 0 hs None) as [l|];
  destruct (last_match is_followup 0 hs None) as [f|];
  destruct (last_match is_unprocessed 0 hs None) as [u|];
  unfold ret, raise; split; intros H; try reflexivity; try discriminate;
  try (destruct H as [H | [H | H]];
       first [ assert (X : @None nat = None /\ Forall (fun h => is_location h = false) hs) by auto;
               apply Nl in X; discriminate
             | assert (X : @None nat = None /\ Forall (fun h => is_followup h = false) hs) by auto;
               apply Nf in X; discriminate
             | assert (X : @None nat = None /\ Forall (fun h => is_unprocessed h = false) hs) by auto;
               apply Nu in X; discriminate ]);
  first [ left; now apply Nl | right; left; now apply Nf | right; right; now apply Nu ].
Qed.

End Columns.

(** ** Row extraction *)
Section Extraction.
Import Dom Scraper Props.

Lemma resolve_columns_cases (hs : list string) :
  (markers_unmatched hs /\ resolve_columns hs = ([], inl (MissingColumns hs)))
  \/ (exists cols, resolve_columns hs = ([], inr cols)).
Proof.
  assert (D : resolve_columns hs = ([], inl (MissingColumns hs))
              \/ exists cols, resolve_columns hs = ([], inr cols)).
  { unfold resolve_columns.
    destruct (scan_headers 0 hs None None None) as [[[l|] [f|]] [u|]];
      unfold ret, raise; eauto. }
  destruct D as [E | E]; [left | right; exact E].
  split; [now apply resolve_columns_fails | exact E].
Qed.

Lemma extract_row_total (cols : ColumnIndexMap) (cells : Row) :
  exists tr o, extract_row cols cells = (tr, inr o).
Proof.
  unfold extract_row.
  destruct (max_idx cols <? List.length cells)%nat; [|now exists [], None].
  destruct (nth_error cells (location_idx cols)) as [lc|]; [|now exists [], None].
  destruct (nth_error cells (followup_idx cols)) as [fc|]; [|now exists [], None].
  destruct (nth_error cells (unprocessed_idx cols)) as [uc|]; [|now exists [], None].
  destruct (PyStr.int _) as [f|]; [destruct (PyStr.int _) as [u|]|];
    unfold ret, bind, emit; cbn; eauto.
Qed.

Lemma extract_row_some (cols : ColumnIndexMap) (cells : Row)
    (tr : list event) (r : ExtractedRecord) :
  extract_row cols cells = (tr, inr (Some r)) ->
  tr = [] /\ record_of_row cols cells r.
Proof.
  unfold extract_row, record_of_row.
  destruct (max_idx cols <? List.length cells)%nat; [|discriminate].
  destruct (nth_error cells (location_idx cols)) as [lc|]; [|discriminate].
  destruct (nth_error cells (followup_idx cols)) as [fc|]; [|discriminate].
  destruct (nth_error cells (unprocessed_idx cols)) as [uc|]; [|discriminate].
  destruct (PyStr.int _) as [f|] eqn:Ef;
    [destruct (PyStr.int (clean_number (PyStr.strip (inner_text uc)))) as [u|] eqn:Eu|];
    unfold ret, bind, emit; cbn; try discriminate.
  intros [= <- <-]. split; [reflexivity|].
  exists lc, fc, uc. cbn. auto 10.
Qed.

Lemma extract_rows_total (cols : ColumnIndexMap) (rows : list Row) :
  exists tr data, extract_rows cols rows = (tr, inr data).
Proof.
  induction rows as [|cells rows (tr & data & IH)]; [now exists [], []|].
  destruct (extract_row_total cols cells) as (tr0 & o & E).
  cbn [extract_rows]. rewrite E. unfold bind at 1. rewrite IH.
  cbn. eauto.
Qed.

Lemma extract_rows_in (cols : ColumnIndexMap) (rows : list Row)
    (tr : list event) (data : list ExtractedRecord) (r : ExtractedRecord) :
  extract_rows cols rows = (tr, inr data) -> In r data ->
  exists cells, In cells rows /\ record_of_row cols cells r.
Proof.
  revert tr data. induction rows as [|cells rows IH]; intros tr data E Hin.
  - injection E as <- <-. destruct Hin.
  - destruct (extract_row_total cols cells) as (tr0 & o & E0).
    destruct (extract_rows_total cols rows) as (tr1 & data1 & E1).
    cbn [extract_rows] in E. rewrite E0 in E. unfold bind at 1 in E.
    rewrite E1 in E. cbn in E. injection E as <- <-.
    destruct o as [r0|].
    + destruct Hin as [<- | Hin].
      * exists cells. split; [now left|]. now apply (extract_row_some _ _ tr0).
      * destruct (IH _ _ E1 Hin) as (c & Hc & R). exists c. split; [now right|auto].
    + destruct (IH _ _ E1 Hin) as (c & Hc & R). exists c. split; [now right|auto].
Qed.

Lemma location_text_stripped (c : Cell) :
  PyStr.strip (location_text c) = location_text c.
Proof.
  unfold location_text. destruct (location_name c); apply strip_idem.
Qed.

(** What [row_extractor] returns, by cases on the column resolution. *)
Lemma row_extractor_cases (headers : list string) (rows : list Row) :
  (markers_unmatched headers
   /\ row_extractor headers rows = ([], inl (MissingColumns headers)))
  \/ (exists cols tr data,
        resolve_columns headers = ([], inr cols)
        /\ extract_rows cols rows = (tr, inr data)
        /\ row_extractor headers rows
           = (tr, match data with [] => inl NoValidData | _ => inr data end)).
Proof.
  unfold row_extractor.
  destruct (resolve_columns_cases headers) as [[U E] | [cols E]]; rewrite E.
  - left. split; [exact U | reflexivity].
  - right. destruct (extract_rows_total cols rows) as (tr & data & E').
    exists cols, tr, data. split; [reflexivity|]. split; [exact E'|].
    unfold bind at 1. unfold bind at 1. rewrite E'.
    destruct data; cbn; now rewrite app_nil_r.
Qed.

Lemma not_occurs (needle text : string) :
  PyStr.contains needle text = false -> ~ Spec.occurs needle text.
Proof. intros H O. apply occurs_contains in O. congruence. Qed.

(** The matchers of the header loop against the markers written out. *)
Lemma markers_unmatched_spec (headers : list string) :
  markers_unmatched headers <-> Spec.marker_unmatched headers.
Proof.
  assert (N : forall needle h,
             PyStr.contains needle (h_clean h) = false
             <-> ~ Spec.occurs needle (Spec.normalised h)).
  { intros needle h. change (Spec.normalised h) with (h_clean h).
    rewrite occurs_contains.
    destruct (PyStr.contains needle (h_clean h)); split; congruence. }
  unfold markers_unmatched, Spec.marker_unmatched.
  rewrite !Forall_forall.
  unfold is_location, is_followup, is_unprocessed.
  split; (intros [H | [H | H]]; [left | right; left | right; right]);
    intros h Hin; specialize (H h Hin).
  - exact (proj1 (N _ _) H).
  - apply orb_false_iff in H as [H1 H2].
    split; [exact (proj1 (N _ _) H1) | exact (proj1 (N _ _) H2)].
  - exact (proj1 (N _ _) H).
  - exact (proj2 (N _ _) H).
  - destruct H as [H1 H2]. apply orb_false_iff.
    split; [exact (proj2 (N _ _) H1) | exact (proj2 (N _ _) H2)].
  - exact (proj2 (N _ _) H).
Qed.

(** C7. Column resolution fails with MissingColumns, carrying the header
    texts it saw, exactly when one of the three markers is matched by no
    header, each header being taken with its newlines turned into spaces,
    stripped and upper-cased: none contains "LOCATION", or none contains
    "FOLLOW-UP" or "FOLLOW UP", or none contains "UNPROCESSED".  The
    failure is the whole result whatever the rows are, with nothing
    logged: no row has been read. *)
Theorem missing_columns_iff (headers : list string) (rows : list Row) :
  (Spec.marker_unmatched headers
   <-> row_extractor headers rows = ([], inl (MissingColumns headers)))
  /\ (Spec.marker_unmatched headers
      <-> resolve_columns headers = ([], inl (MissingColumns headers)))
  /\ (forall tr hs,
        row_extractor headers rows = (tr, inl (MissingColumns hs)) ->
        Spec.marker_unmatched headers /\ hs = headers /\ tr = []).
Proof.
  pose proof (markers_unmatched_spec headers) as S.
  pose proof (resolve_columns_fails headers) as F.
  destruct (row_extractor_cases headers rows)
    as [[U E] | (cols & tr & data & R & X & E)]; rewrite E.
  - split; [tauto|]. split; [tauto|].
    intros tr hs [= <- <-]. tauto.
  - split; [|split].
    + split; [|destruct data; discriminate].
      intros U. apply S, F in U. congruence.
    + tauto.
    + intros tr' hs. destruct data; discriminate.
Qed.

(** C8. The extractor never returns an empty list: when the columns are
    resolved and the per-row extraction leaves no record, it fails with
    NoValidData. *)
Theorem empty_result_is_no_valid_data (headers : list string) (rows : list Row) :
  (forall cols tr,
      resolve_columns headers = ([], inr cols) ->
      extract_rows cols rows = (tr, inr []) ->
      row_extractor headers rows = (tr, inl NoValidData))
  /\ (forall tr, row_extractor headers rows <> (tr, inr [])).
Proof.
  destruct (row_extractor_cases headers rows)
    as [[U E] | (cols & tr & data & R & X & E)]; rewrite E.
  - split; [|discriminate]. intros cols tr R.
    apply resolve_columns_fails in U. congruence.
  - split.
    + intros cols' tr' R' X'. assert (cols' = cols) by congruence. subst.
      rewrite X in X'. injection X' as -> ->. reflexivity.
    + intros tr'. destruct data; discriminate.
Qed.

(** C3. The end-to-end example: Site A and Site B are returned in order,
    the zero row included; Site C is skipped with a warning and no
    error. *)
Theorem site_example :
  row_extractor Examples.site_headers Examples.site_rows
  = ([EvWarn "Site C"],
     inr [mkRecord "Site A" 10 3; mkRecord "Site B" 0 0]).
Proof. reflexivity. Qed.

Lemma record_of_row_read (cols : ColumnIndexMap) (cells : Row)
    (r : ExtractedRecord) :
  record_of_row cols cells r -> read_from_row cols cells r.
Proof.
  intros (lc & fc & uc & Nl & Nf & Nu & L & F & U).
  exists lc, fc, uc. repeat (split; [assumption|]).
  split; [|split; [exact F | exact U]].
  rewrite L. unfold location_text. now destruct (location_name lc).
Qed.

(** C2, as the code has it.  Every record returned was read from one of
    the rows at the resolved columns: its location is the stripped text of
    the location-name element of the location cell when the cell has one,
    and of the cell itself otherwise, so that it has no blank at either
    end; its two counts are the integers that [int] reads from the texts
    of the count cells once stripped and freed of commas and of spaces. *)
Theorem extracted_records_shape (headers : list string) (rows : list Row)
    (tr : list event) (data : list ExtractedRecord) :
  row_extractor headers rows = (tr, inr data) ->
  forall r, In r data ->
    PyStr.strip (location r) = location r
    /\ exists cols cells,
         resolve_columns headers = ([], inr cols)
         /\ In cells rows
         /\ read_from_row cols cells r.
Proof.
  intros E r Hin.
  destruct (row_extractor_cases headers rows)
    as [[U E'] | (cols & tr' & data' & R & X & E')]; rewrite E' in E.
  - discriminate.
  - destruct data' as [|r0 data']; [discriminate|]. injection E as <- <-.
    destruct (extract_rows_in _ _ _ _ _ X Hin) as (cells & Hc & Rr).
    split.
    + destruct Rr as (lc & _ & _ & _ & _ & _ & L & _). rewrite L.
      apply location_text_stripped.
    + exists cols, cells. repeat split; auto. now apply record_of_row_read.
Qed.

(** C2 fails as worded: a row with an empty location cell and the count
    "-5" gives a record with an empty location and a negative count. *)
Lemma record_shape_counterexample :
  row_extractor Examples.site_headers Examples.odd_rows
  = ([], inr [mkRecord "" (-5) 3])
  /\ ~ record_ok (mkRecord "" (-5) 3)
  /\ followups (mkRecord "" (-5) 3) < 0
  /\ ~ (forall headers rows tr data,
          row_extractor headers rows = (tr, inr data) -> Forall record_ok data).
Proof.
  split; [reflexivity|]. split; [|split].
  - intros (Hloc & _). now apply Hloc.
  - reflexivity.
  - intros H.
    specialize (H Examples.site_headers Examples.odd_rows []
                  [mkRecord "" (-5) 3] eq_refl).
    inversion H as [|r l (Hloc & _) _]; subst.
    now apply Hloc.
Qed.

End Extraction.

(** ** Headers that share a column *)
Section SharedColumn.
Import Dom Scraper Props.

Lemma last_at_unique (p : string -> bool) (hs : list string) (a b : nat) :
  last_at p hs a -> last_at p hs b -> a = b.
Proof.
  intros (x & N & Px & Lx) (y & N' & Py & Ly).
  destruct (Nat.lt_trichotomy a b) as [Hlt | [Heq | Hgt]]; auto.
  - rewrite (Lx b y Hlt N') in Py. discriminate.
  - rewrite (Ly a x Hgt N) in Px. discriminate.
Qed.



End SharedColumn.

(** ** The snapshot writer *)
Section WriterFacts.
Import Scraper Writer WriterProps.

Variable snapshot_time : Z.
Variable sp : nat -> ExtractedRecord -> proc_outcome.

Lemma save_records_spec (data : list ExtractedRecord) (idx : nat)
    (c : Conn) (t : Tally) :
  pending c = [] ->
  save_records snapshot_time sp idx data (c, t)
  = (mkConn
       (committed c ++ flat_map (persisted_row snapshot_time sp) (indexed_from idx data))
       []
       (db_log c ++ flat_map (record_log sp) (indexed_from idx data)),
     mkTally
       (inserted t + List.length (filter (resolved sp) (indexed_from idx data)))
       (failed t + List.length (filter (fails sp) (indexed_from idx data)))
       (locations_without_lcode t
        ++ map (fun ir => location (snd ir))
               (filter (unresolved sp) (indexed_from idx data))))%list.
Proof.
  revert idx c t. induction data as [|r data IH]; intros idx c t P.
  - destruct c, t. cbn in *. subst. now rewrite !app_nil_r, !Nat.add_0_r.
  - destruct c as [cm pd lg], t as [ins fl lw]. cbn in P. subst pd.
    cbn [save_records]. unfold indexed_from. cbn [List.length seq combine].
    fold (indexed_from (S idx) data).
    cbn [flat_map filter map].
    unfold persisted_row at 1, record_log at 1, resolved at 1, fails at 1,
           unresolved at 1.
    unfold save_record, execute_proc, log. cbn [fst snd committed pending db_log].
    destruct (sp idx r) as [| |id [l|]];
      unfold commit, rollback;
      cbn [committed pending db_log inserted failed locations_without_lcode];
      rewrite IH by reflexivity;
      cbn [committed pending db_log inserted failed locations_without_lcode
           List.length map app];
      rewrite <- ?app_assoc, ?Nat.add_succ_r; reflexivity.
Qed.

Lemma in_indexed_from (data : list ExtractedRecord) (idx i : nat)
    (r : ExtractedRecord) :
  In (i, r) (indexed_from idx data)
  <-> (idx <= i)%nat /\ nth_error data (i - idx) = Some r.
Proof.
  revert idx. induction data as [|r0 data IH]; intros idx.
  - cbn. split; [tauto|]. intros [_ H]. now destruct (i - idx)%nat.
  - unfold indexed_from. cbn [List.length seq combine In].
    fold (indexed_from (S idx) data). rewrite IH. split.
    + intros [[= <- <-] | [Hle Hn]].
      * split; [lia|]. now rewrite Nat.sub_diag.
      * split; [lia|]. replace (i - idx)%nat with (S (i - S idx)) by lia.
        exact Hn.
    + intros [Hle Hn]. destruct (Nat.eq_dec i idx) as [->|Hne].
      * left. rewrite Nat.sub_diag in Hn. cbn in Hn. congruence.
      * right. split; [lia|].
        replace (i - idx)%nat with (S (i - S idx)) in Hn by lia. exact Hn.
Qed.

(** C9. In a run whose truncate succeeds, every record for which the
    procedure returns an absent location code has its write rolled back
    right after the call, so no persisted row comes from it; its location
    name is appended to the without-code report once, at its place; and the
    records after it are still submitted.  The persisted rows are those of
    the records with a location code, and nothing is left uncommitted. *)
Theorem unresolved_records_rolled_back (c0 : Conn) (data : list ExtractedRecord) :
  exists c t,
    save_to_database snapshot_time true sp c0 data = (c, Some t)
    /\ committed c = flat_map (persisted_row snapshot_time sp) (indexed data)
    /\ pending c = []
    /\ inserted t = List.length (filter (resolved sp) (indexed data))
    /\ failed t = List.length (filter (fails sp) (indexed data))
    /\ forall before i r after,
         indexed data = (before ++ (i, r) :: after)%list ->
         unresolved sp (i, r) = true ->
         (forall row, In row (committed c) -> row_idx row <> i)
         /\ locations_without_lcode t
            = (map (fun ir => location (snd ir)) (filter (unresolved sp) before)
               ++ [location r]
               ++ map (fun ir => location (snd ir)) (filter (unresolved sp) after))%list
         /\ db_log c
            = (db_log c0 ++ [DbTruncate; DbCommit]
               ++ flat_map (record_log sp) before
               ++ [DbExec i; DbRollback]
               ++ flat_map (record_log sp) after)%list.
Proof.
  unfold save_to_database, log. cbn [committed pending db_log].
  rewrite save_records_spec by reflexivity.
  cbn [committed pending db_log inserted failed locations_without_lcode app].
  fold (indexed data).
  eexists _, _. split; [reflexivity|].
  cbn [committed pending db_log inserted failed locations_without_lcode].
  repeat (split; [reflexivity|]).
  intros before i r after E U. split; [|split].
  - intros row Hrow Hidx. apply in_flat_map in Hrow as ([j r'] & Hin & Hp).
    assert (Hi : In (i, r) (indexed data))
      by (rewrite E; apply in_or_app; right; now left).
    unfold indexed in Hin, Hi.
    apply in_indexed_from in Hin as [_ Hn'], Hi as [_ Hn].
    unfold persisted_row in Hp. cbn [fst snd] in Hp.
    unfold unresolved in U. cbn [fst snd] in U.
    destruct (sp j r') as [| |id [l|]] eqn:S; cbn in Hp; try contradiction.
    destruct Hp as [<- | []].
    cbn in Hidx. subst j. assert (r' = r) by congruence. subst r'.
    rewrite S in U. discriminate.
  - rewrite E, filter_app. cbn [filter]. rewrite U, map_app. reflexivity.
  - rewrite E, flat_map_app. cbn [flat_map]. unfold record_log at 2.
    unfold unresolved in U. cbn [fst snd] in *.
    destruct (sp i r) as [| |id [l|]]; try discriminate.
    rewrite <- !app_assoc. reflexivity.
Qed.

End WriterFacts.

(** ** The theorems at concrete inputs *)
Section Instances.
Import Dom Scraper Props Writer WriterProps Examples MoreProps.

Lemma populated_iff_floor_threshold_witness :
  check_rows sparse_rows = Some true
  /\ (Nat.max 10 (List.length sparse_rows / 20) <= nonzero_cells sparse_rows)%nat
  /\ populated sparse_rows = true.
Proof.
  assert (E : check_rows sparse_rows = Some true) by (vm_compute; reflexivity).
  split; [exact E|].
  destruct (proj1 (populated_iff_floor_threshold sparse_rows) true E) as [I P].
  split; [exact (proj1 I eq_refl) | exact P].
Defined.

Lemma poll_returns_at_first_populated_witness :
  (1 <= 3 <= 20)%nat
  /\ (forall j, (j < 3 - 1)%nat -> check_rows (rows_of hydrating_table j) = Some false)
  /\ check_rows (rows_of hydrating_table (3 - 1)) = Some true
  /\ exists tr,
       poll hydrating_table = (tr, inr live_rows)
       /\ attempts tr = 3%nat /\ sleeps tr = 2%nat.
Proof.
  assert (H1 : (1 <= 3 <= 20)%nat) by lia.
  assert (H2 : forall j, (j < 3 - 1)%nat ->
                 check_rows (rows_of hydrating_table j) = Some false).
  { intros [|[|j]] Hj; [reflexivity | reflexivity | simpl in Hj; lia]. }
  assert (H3 : check_rows (rows_of hydrating_table (3 - 1)) = Some true)
    by reflexivity.
  repeat (split; [assumption|]).
  destruct (poll_returns_at_first_populated hydrating_table 3 H1 H2 H3)
    as (tr & E & _ & A & S & _).
  exists tr. repeat split; assumption.
Defined.

Lemma poll_exhausts_budget_witness :
  (forall j, (j < 20)%nat -> check_rows (rows_of stale_table j) = Some false)
  /\ snd (poll stale_table) = inl TableNotPopulated
  /\ attempts (fst (poll stale_table)) = 20%nat.
Proof.
  assert (H : forall j, (j < 20)%nat ->
                check_rows (rows_of stale_table j) = Some false)
    by (intros j _; reflexivity).
  destruct (poll_exhausts_budget stale_table) as [[F _] G].
  split; [exact H|]. split; [exact (F H)|].
  exact (proj1 (proj2 (G (F H)))).
Defined.

Lemma missing_columns_iff_witness :
  Spec.marker_unmatched no_followup_headers
  /\ row_extractor no_followup_headers site_rows
     = ([], inl (MissingColumns no_followup_headers))
  /\ ~ Spec.marker_unmatched spaced_headers.
Proof.
  assert (U : Spec.marker_unmatched no_followup_headers).
  { right. left. intros h [<- | [<- | [<- | []]]];
      split; apply not_occurs; reflexivity. }
  split; [exact U|]. split.
  - exact (proj1 (proj1 (missing_columns_iff no_followup_headers site_rows)) U).
  - intros V.
    pose proof (proj1 (proj1 (missing_columns_iff spaced_headers site_rows)) V)
      as E.
    discriminate E.
Defined.

Lemma empty_result_is_no_valid_data_witness :
  resolve_columns site_headers = ([], inr (mkCols 0 1 2))
  /\ extract_rows (mkCols 0 1 2) bad_rows = ([EvWarn "Site C"], inr [])
  /\ row_extractor site_headers bad_rows = ([EvWarn "Site C"], inl NoValidData).
Proof.
  split; [reflexivity|]. split; [reflexivity|].
  exact (proj1 (empty_result_is_no_valid_data site_headers bad_rows)
               (mkCols 0 1 2) [EvWarn "Site C"] eq_refl eq_refl).
Defined.

Lemma extracted_records_shape_witness :
  row_extractor site_headers named_rows = ([], inr [mkRecord "Site P" 1234 56])
  /\ PyStr.strip "Site P" = "Site P"
  /\ exists cols cells,
       resolve_columns site_headers = ([], inr cols)
       /\ In cells named_rows
       /\ read_from_row cols cells (mkRecord "Site P" 1234 56).
Proof.
  assert (E : row_extractor site_headers named_rows
              = ([], inr [mkRecord "Site P" 1234 56])) by reflexivity.
  split; [exact E|].
  exact (extracted_records_shape site_headers named_rows _ _ E _
           (or_introl eq_refl)).
Defined.


Lemma unresolved_records_rolled_back_witness :
  exists c t,
    save_to_database 1700000000 true sp_example fresh_conn three_records
    = (c, Some t)
    /\ locations_without_lcode t = ["Nowhere"]
    /\ (forall row, In row (committed c) -> row_idx row <> 2%nat)
    /\ inserted t = 2%nat /\ failed t = 1%nat.
Proof.
  destruct (unresolved_records_rolled_back 1700000000 sp_example fresh_conn
              three_records) as (c & t & E & _ & _ & I & F & H).
  exists c, t. split; [exact E|].
  destruct (H [(1%nat, mkRecord "Site A" 10 3)] 2%nat (mkRecord "Nowhere" 4 1)
              [(3%nat, mkRecord "Site B" 0 0)] eq_refl eq_refl) as (X & Y & _).
  split; [exact Y|]. split; [exact X|]. split; [exact I | exact F].
Defined.

End Instances.

(** ** [scrape_table] as a whole *)
Section WholeScrape.
Import PyStr Dom Scraper Props MoreProps.

(** How [scrape_table] goes, stage by stage. *)
Lemma scrape_table_cases (frames : list Frame) :
  (no_match frames
   /\ scrape_table frames
      = ([EvSleep 3; EvScreenshot "no_table_found.png"], inl TableNotFound))
  \/ (exists t, first_match frames t
        /\ ((never_populated t
             /\ scrape_table frames
                = ((EvSleep 3 :: failed_attempts 0 20
                    ++ [EvScreenshot "empty_table_debug.png"])%list,
                   inl TableNotPopulated))
            \/ (exists k, first_raises t k
                  /\ scrape_table frames
                     = ((EvSleep 3 :: failed_attempts 0 k ++ [EvAttempt k])%list,
                        inl IntConversionError))
            \/ (exists k, first_populated t k
                  /\ scrape_table frames
                     = ((EvSleep 3 :: failed_attempts 0 k ++ [EvAttempt k]
                         ++ fst (row_extractor (th_texts t) (rows_of t k)))%list,
                        snd (row_extractor (th_texts t) (rows_of t k)))))).
Proof.
  unfold scrape_table.
  destruct (locate_cases frames) as [(t & F & L) | [N L]]; rewrite L.
  - right. exists t. split; [exact F|].
    destruct (poll_cases t) as [[Hall P] | [(k & Hk & P) | (k & Hk & P)]].
    + left. split; [exact Hall|].
      unfold bind, emit, ret. rewrite P. reflexivity.
    + right. right. exists k. split; [exact Hk|].
      unfold bind, emit, ret. rewrite P.
      destruct (row_extractor (th_texts t) (rows_of t k)) as [tr r].
      cbn. rewrite <- app_assoc. reflexivity.
    + right. left. exists k. split; [exact Hk|].
      unfold bind, emit, ret. rewrite P. reflexivity.
  - left. split; [exact N | reflexivity].
Qed.

Lemma first_match_unique (frames : list Frame) (t t' : Table) :
  first_match frames t -> first_match frames t' -> t = t'.
Proof.
  intros H H'. apply find_in_frames_some in H, H'. congruence.
Qed.

Lemma first_match_excludes (frames : list Frame) (t : Table) :
  first_match frames t -> no_match frames -> False.
Proof.
  intros H N. apply find_in_frames_some in H.
  apply find_in_frames_none in N. congruence.
Qed.

Lemma row_extractor_nonempty (headers : list string) (rows : list Row)
    (tr : list event) :
  row_extractor headers rows <> (tr, inr []).
Proof.
  destruct (row_extractor_cases headers rows)
    as [[_ X] | (c & tr0 & d & _ & _ & X)]; rewrite X;
    [discriminate | destruct d; discriminate].
Qed.

Lemma scrape_table_nonempty (frames : list Frame) (tr : list event) :
  scrape_table frames <> (tr, inr []).
Proof.
  intros E.
  destruct (scrape_table_cases frames)
    as [[_ E'] | (t & F & [[_ E'] | [(k & _ & E') | (k & _ & E')]])];
    rewrite E' in E; try discriminate.
  destruct (row_extractor (th_texts t) (rows_of t k)) as [tr' r] eqn:R.
  cbn [fst snd] in E. injection E as _ ->.
  now apply row_extractor_nonempty in R.
Qed.

(** X1. A successful scrape is the composition of its three stages: the
    records are those the extractor reads, under the headers of the first
    qualifying table, from the rows of the first populated attempt, no
    check having raised up to it; the trace is the initial sleep, the
    failed attempts, the successful one and the extractor's warnings; and
    the list returned is never empty. *)
Theorem scrape_table_success (frames : list Frame) (tr : list event)
    (data : list ExtractedRecord) :
  scrape_table frames = (tr, inr data) ->
  data <> []
  /\ exists t k tr',
       first_match frames t
       /\ (k < 20)%nat
       /\ (forall j, (j < k)%nat -> populated (rows_of t j) = false)
       /\ populated (rows_of t k) = true
       /\ row_extractor (th_texts t) (rows_of t k) = (tr', inr data)
       /\ tr = (EvSleep 3 :: failed_attempts 0 k ++ [EvAttempt k] ++ tr')%list
       /\ (forall j, (j <= k)%nat -> check_rows (rows_of t j) <> None).
Proof.
  intros E.
  destruct (scrape_table_cases frames)
    as [[_ E'] | (t & F & [[_ E'] | [(k & _ & E')
                                    | (k & (Hk & Hb & Hat) & E')]])];
    rewrite E' in E; try discriminate.
  destruct (row_extractor (th_texts t) (rows_of t k)) as [tr' r] eqn:R.
  cbn [fst snd] in E. injection E as <- ->. split.
  - intros ->. now apply row_extractor_nonempty in R.
  - exists t, k, tr'. split; [exact F|]. split; [exact Hk|]. split.
    { intros j Hj. unfold populated. now rewrite (Hb j Hj). }
    split; [now apply populated_check|]. split; [exact R|].
    split; [reflexivity|].
    intros j Hj. destruct (Nat.eq_dec j k) as [->|Hne]; [congruence|].
    rewrite (Hb j); [discriminate | lia].
Qed.

End WholeScrape.

Section ScrapeOutcomes.
Import PyStr Dom Scraper Props MoreProps.

(** At most one attempt is the first that does not just wait, and it
    either is populated or raises. *)
Lemma poll_ending_unique (t : Table) :
  (forall k k', first_populated t k -> first_populated t k' -> k = k')
  /\ (forall k k', first_raises t k -> first_raises t k' -> k = k')
  /\ (forall k k', first_populated t k -> first_raises t k' -> False)
  /\ (forall k, never_populated t -> first_populated t k -> False)
  /\ (forall k, never_populated t -> first_raises t k -> False).
Proof.
  unfold first_populated, first_raises, never_populated.
  split; [|split; [|split; [|split]]].
  - intros k k' (_ & Hb & Hat) (_ & Hb' & Hat').
    apply (first_stop_unique t k k'); auto; congruence.
  - intros k k' (_ & Hb & Hat) (_ & Hb' & Hat').
    apply (first_stop_unique t k k'); auto; congruence.
  - intros k k' (_ & Hb & Hat) (_ & Hb' & Hat').
    assert (k = k') by (apply (first_stop_unique t k k'); auto; congruence).
    subst. congruence.
  - intros k N (Hk & _ & Hat). rewrite (N k Hk) in Hat. discriminate.
  - intros k N (Hk & _ & Hat). rewrite (N k Hk) in Hat. discriminate.
Qed.

(** The stage reached by [scrape_table], in terms of the page alone. *)
Lemma scrape_table_stage (frames : list Frame) :
  (no_match frames /\ snd (scrape_table frames) = inl TableNotFound)
  \/ (exists t, first_match frames t /\ never_populated t
        /\ snd (scrape_table frames) = inl TableNotPopulated)
  \/ (exists t k, first_match frames t /\ first_raises t k
        /\ snd (scrape_table frames) = inl IntConversionError)
  \/ (exists t k, first_match frames t /\ first_populated t k
        /\ snd (scrape_table frames)
           = snd (row_extractor (th_texts t) (rows_of t k))).
Proof.
  destruct (scrape_table_cases frames)
    as [[N E] | (t & F & [[N E] | [(k & R & E) | (k & P & E)]])]; rewrite E.
  - now left.
  - right. left. now exists t.
  - right. right. left. now exists t, k.
  - right. right. right. now exists t, k.
Qed.

(** X2. Each error of [scrape_table] names the stage that failed:
    TableNotFound exactly when no table qualifies; TableNotPopulated
    exactly when each of the 20 reads of the first qualifying table counts
    its cells without reaching the threshold; the ValueError of [int]
    exactly when a check raises on a read before which the table was not
    populated; MissingColumns exactly when that table does get populated
    but one of the three markers is in none of its headers, which the
    error then carries; NoValidData exactly when the columns resolve and no
    row of the first populated read yields a record. *)
Theorem scrape_table_errors (frames : list Frame) :
  (snd (scrape_table frames) = inl TableNotFound <-> no_match frames)
  /\ (snd (scrape_table frames) = inl TableNotPopulated
      <-> exists t, first_match frames t /\ never_populated t)
  /\ (snd (scrape_table frames) = inl IntConversionError
      <-> exists t k, first_match frames t /\ first_raises t k)
  /\ (forall hs,
        snd (scrape_table frames) = inl (MissingColumns hs)
        <-> exists t k, first_match frames t /\ first_populated t k
              /\ hs = th_texts t /\ markers_unmatched hs)
  /\ (snd (scrape_table frames) = inl NoValidData
      <-> exists t k cols tr,
            first_match frames t /\ first_populated t k
            /\ resolve_columns (th_texts t) = ([], inr cols)
            /\ extract_rows cols (rows_of t k) = (tr, inr [])).
Proof.
  assert (X0 : forall t, first_match frames t -> no_match frames -> False)
    by (intros t; apply first_match_excludes).
  destruct (scrape_table_stage frames)
    as [[N E] | [(t & F & N & E) | [(t & k & F & R & E) | (t & k & F & P & E)]]];
    rewrite E.
  - split; [tauto|].
    split; [split; [discriminate | intros (t & F & _); destruct (X0 t F N)]|].
    split; [split; [discriminate | intros (t & k & F & _); destruct (X0 t F N)]|].
    split; [intros hs; split;
            [discriminate | intros (t & k & F & _); destruct (X0 t F N)]|].
    split; [discriminate | intros (t & k & c & tr & F & _); destruct (X0 t F N)].
  - destruct (poll_ending_unique t) as (_ & _ & _ & U4 & U5).
    assert (S : forall t', first_match frames t' -> t' = t)
      by (intros t' F'; apply (first_match_unique frames); assumption).
    split; [split; [discriminate | intros N'; destruct (X0 t F N')]|].
    split; [split; [intros _; now exists t | reflexivity]|].
    split; [split; [discriminate|];
            intros (t' & k & F' & R); rewrite (S t' F') in R;
            destruct (U5 k N R)|].
    split; [intros hs; split; [discriminate|];
            intros (t' & k & F' & P & _); rewrite (S t' F') in P;
            destruct (U4 k N P)|].
    split; [discriminate|].
    intros (t' & k & c & tr & F' & P & _). rewrite (S t' F') in P.
    destruct (U4 k N P).
  - destruct (poll_ending_unique t) as (_ & _ & U3 & _ & U5).
    assert (S : forall t', first_match frames t' -> t' = t)
      by (intros t' F'; apply (first_match_unique frames); assumption).
    split; [split; [discriminate | intros N'; destruct (X0 t F N')]|].
    split; [split; [discriminate|];
            intros (t' & F' & N); rewrite (S t' F') in N;
            destruct (U5 k N R)|].
    split; [split; [intros _; now exists t, k | reflexivity]|].
    split; [intros hs; split; [discriminate|];
            intros (t' & k' & F' & P & _); rewrite (S t' F') in P;
            destruct (U3 k' k P R)|].
    split; [discriminate|].
    intros (t' & k' & c & tr & F' & P & _). rewrite (S t' F') in P.
    destruct (U3 k' k P R).
  - destruct (poll_ending_unique t) as (U1 & _ & U3 & U4 & _).
    assert (U : forall t' k', first_match frames t' -> first_populated t' k' ->
                  t' = t /\ k' = k).
    { intros t' k' F' P'. pose proof (first_match_unique _ _ _ F' F). subst t'.
      split; [reflexivity|]. now apply U1. }
    assert (S : forall t', first_match frames t' -> t' = t)
      by (intros t' F'; apply (first_match_unique frames); assumption).
    destruct (row_extractor_cases (th_texts t) (rows_of t k))
      as [[M X] | (cols & tr & data & Rc & X & Y)].
    + rewrite X. cbn [snd].
      split; [split; [discriminate | intros N; destruct (X0 t F N)]|].
      split; [split; [discriminate|];
              intros (t' & F' & N); rewrite (S t' F') in N;
              destruct (U4 k N P)|].
      split; [split; [discriminate|];
              intros (t' & k' & F' & R); rewrite (S t' F') in R;
              destruct (U3 k k' P R)|].
      split; [intros hs; split|].
      * intros [= <-]. now exists t, k.
      * intros (t' & k' & F' & P' & -> & _).
        destruct (U _ _ F' P') as [-> ->]. reflexivity.
      * split; [discriminate|]. intros (t' & k' & c & tr & F' & P' & R & _).
        destruct (U _ _ F' P') as [-> ->].
        apply resolve_columns_fails in M. congruence.
    + rewrite Y. cbn [snd].
      split; [split; [destruct data; discriminate
                     | intros N; destruct (X0 t F N)]|].
      split; [split; [destruct data; discriminate|];
              intros (t' & F' & N); rewrite (S t' F') in N;
              destruct (U4 k N P)|].
      split; [split; [destruct data; discriminate|];
              intros (t' & k' & F' & R); rewrite (S t' F') in R;
              destruct (U3 k k' P R)|].
      split; [intros hs; split; [destruct data; discriminate|]|].
      * intros (t' & k' & F' & P' & -> & M).
        destruct (U _ _ F' P') as [-> ->].
        apply resolve_columns_fails in M. congruence.
      * split.
        -- intros E'. destruct data; [|discriminate].
           now exists t, k, cols, tr.
        -- intros (t' & k' & c & tr' & F' & P' & R' & X').
           destruct (U _ _ F' P') as [-> ->].
           assert (c = cols) by congruence. subst c.
           rewrite X in X'. injection X' as _ ->. reflexivity.
Qed.

End ScrapeOutcomes.

Section Waiting.
Import PyStr Dom Scraper Props MoreProps.

Lemma total_sleep_app (tr1 tr2 : list event) :
  total_sleep (tr1 ++ tr2) = total_sleep tr1 + total_sleep tr2.
Proof.
  induction tr1 as [|[s|a|p|l] tr1 IH]; cbn [total_sleep app]; lia.
Qed.

Lemma total_sleep_failed (a n : nat) :
  total_sleep (failed_attempts a n) = 3 * Z.of_nat n.
Proof.
  revert a. induction n as [|n IH]; intros a; [reflexivity|].
  unfold failed_attempts in *. cbn [seq flat_map app total_sleep].
  rewrite IH. lia.
Qed.

Lemma warnings_no_sleep (tr : list event) :
  Forall (fun ev => is_warn ev = true) tr ->
  total_sleep tr = 0 /\ attempts tr = 0%nat /\ sleeps tr = 0%nat.
Proof.
  induction 1 as [|ev tr Hev _ (IH1 & IH2 & IH3)]; [now repeat split|].
  destruct ev; try discriminate. now repeat split.
Qed.

Lemma extract_row_cases (cols : ColumnIndexMap) (cells : Row) :
  (wide_enough cols cells = false /\ extract_row cols cells = ([], inr None))
  \/ (wide_enough cols cells = true
      /\ ((exists r, extract_row cols cells = ([], inr (Some r)))
          \/ exists loc, extract_row cols cells = ([EvWarn loc], inr None))).
Proof.
  unfold wide_enough, extract_row.
  destruct (max_idx cols <? List.length cells)%nat eqn:W; [right | now left].
  split; [reflexivity|]. apply Nat.ltb_lt in W. unfold max_idx in W.
  destruct (nth_error cells (location_idx cols)) as [lc|] eqn:El;
    [|apply nth_error_None in El; lia].
  destruct (nth_error cells (followup_idx cols)) as [fc|] eqn:Ef;
    [|apply nth_error_None in Ef; lia].
  destruct (nth_error cells (unprocessed_idx cols)) as [uc|] eqn:Eu;
    [|apply nth_error_None in Eu; lia].
  destruct (int _) as [f|];
    [destruct (int (clean_number (strip (inner_text uc)))) as [u|]|];
    unfold ret, bind, emit; cbn; eauto.
Qed.

Lemma extract_rows_warns (cols : ColumnIndexMap) (rows : list Row) :
  Forall (fun ev => is_warn ev = true) (fst (extract_rows cols rows)).
Proof.
  induction rows as [|cells rows IH]; [constructor|].
  destruct (extract_rows_total cols rows) as (tr1 & data1 & E1).
  cbn [extract_rows]. rewrite E1 in *. cbn [fst] in IH.
  destruct (extract_row_cases cols cells)
    as [[W X] | [W [[r X] | [loc X]]]]; rewrite X; cbn;
    rewrite ?app_nil_r; auto.
Qed.

(** X3. Of the rows handed to the extraction loop, those with a cell at
    every resolved column each give either a record or a warning, and the
    shorter ones are passed over silently: records plus warnings is the
    number of rows that are wide enough, and the loop logs nothing but
    warnings. *)
Theorem extract_rows_accounting (cols : ColumnIndexMap) (rows : list Row)
    (tr : list event) (data : list ExtractedRecord) :
  extract_rows cols rows = (tr, inr data) ->
  (List.length data + List.length tr)%nat
  = List.length (filter (wide_enough cols) rows)
  /\ Forall (fun ev => is_warn ev = true) tr
  /\ (List.length data <= List.length rows)%nat.
Proof.
  revert tr data. induction rows as [|cells rows IH]; intros tr data E.
  - injection E as <- <-. repeat split; auto.
  - destruct (extract_rows_total cols rows) as (tr1 & data1 & E1).
    destruct (IH _ _ E1) as (IHa & IHb & IHc).
    cbn [extract_rows filter] in *. rewrite E1 in E.
    destruct (extract_row_cases cols cells)
      as [[W X] | [W [[r X] | [loc X]]]];
      rewrite X in E; rewrite W; cbn in E; rewrite ?app_nil_r in E;
      injection E as <- <-;
      cbn [List.length app]; repeat split; auto; try lia.
Qed.

Lemma row_extractor_warns (headers : list string) (rows : list Row) :
  Forall (fun ev => is_warn ev = true) (fst (row_extractor headers rows)).
Proof.
  destruct (row_extractor_cases headers rows)
    as [[_ X] | (cols & tr & data & _ & E & X)]; rewrite X; cbn [fst].
  - constructor.
  - pose proof (extract_rows_warns cols rows) as W. now rewrite E in W.
Qed.

(** X4. However the page behaves, [scrape_table] reads the rows at most
    20 times and sleeps at least 3 and at most 63 seconds in all: the
    initial 3, and 3 after each read that was not populated. *)
Theorem scrape_table_waits_bounded (frames : list Frame) :
  3 <= total_sleep (fst (scrape_table frames)) <= 63
  /\ (attempts (fst (scrape_table frames)) <= 20)%nat
  /\ total_sleep (fst (scrape_table frames))
     = 3 + 3 * Z.of_nat (sleeps (fst (scrape_table frames)) - 1).
Proof.
  destruct (scrape_table_cases frames)
    as [[N E] | (t & F & [[N E] | [(k & (Hk & _) & E)
                                  | (k & (Hk & _) & E)]])]; rewrite E;
    cbn [fst].
  - cbn. lia.
  - change (EvSleep 3 :: ?l) with ([EvSleep 3] ++ l)%list.
    rewrite !total_sleep_app, total_sleep_failed.
    rewrite !attempts_app, !sleeps_app, attempts_failed, sleeps_failed.
    cbn. lia.
  - change (EvSleep 3 :: ?l) with ([EvSleep 3] ++ l)%list.
    rewrite !total_sleep_app, total_sleep_failed.
    rewrite !attempts_app, !sleeps_app, attempts_failed, sleeps_failed.
    cbn [total_sleep attempts sleeps filter is_attempt is_sleep List.length]. lia.
  - destruct (warnings_no_sleep _ (row_extractor_warns (th_texts t) (rows_of t k)))
      as (W1 & W2 & W3).
    change (EvSleep 3 :: ?l) with ([EvSleep 3] ++ l)%list.
    rewrite !total_sleep_app, total_sleep_failed.
    rewrite !attempts_app, !sleeps_app, attempts_failed, sleeps_failed.
    rewrite W1, W2, W3.
    cbn [total_sleep attempts sleeps filter is_attempt is_sleep List.length]. lia.
Qed.

(** X5. When the poll loop returns, the rows it hands on are not empty and
    hold at least ten non-zero data cells; it took at most 20 reads, and
    one sleep fewer than reads. *)
Theorem poll_result_populated (t : Table) (tr : list event) (rows : list Row) :
  poll t = (tr, inr rows) ->
  rows <> []
  /\ (10 <= nonzero_cells rows)%nat
  /\ (List.length rows / 20 <= nonzero_cells rows)%nat
  /\ (attempts tr <= 20)%nat
  /\ (sleeps tr + 1)%nat = attempts tr
  /\ exists k, first_populated t k /\ rows = rows_of t k.
Proof.
  intros E.
  destruct (poll_cases t) as [[_ P] | [(k & (Hk & Hb & Hat) & P)
                                      | (k & _ & P)]];
    rewrite P in E; try discriminate.
  injection E as <- <-.
  assert (Q : (Nat.max 10 (List.length (rows_of t k) / 20)
               <= nonzero_cells (rows_of t k))%nat).
  { destruct (check_rows_spec (rows_of t k)) as [[_ X] | [_ X]];
      rewrite X in Hat; [discriminate|].
    injection Hat as Hat. now apply Nat.leb_le. }
  rewrite attempts_app, sleeps_app, attempts_failed, sleeps_failed.
  cbn [attempts sleeps filter is_attempt is_sleep List.length].
  split; [|split; [lia|split; [lia|split; [lia|split; [lia|]]]]].
  - intros Z. rewrite Z in Hat. discriminate.
  - exists k. split; [now repeat split | reflexivity].
Qed.

End Waiting.

(** ** More on the string primitives *)
Section MoreStringFacts.
Import PyStr Dom Scraper Props MoreProps.

Lemma remove_char_digits (old : ascii) (s : string) :
  is_digit old = false -> all_digits s = true -> remove_char old s = s.
Proof.
  intros Hold. induction s as [|c r IH]; cbn [remove_char all_digits];
    [reflexivity|].
  intros H. apply andb_true_iff in H as [Hc Hr].
  destruct (Ascii.eqb c old) eqn:E.
  - apply Ascii.eqb_eq in E. congruence.
  - now rewrite IH.
Qed.

Lemma isdigit_all_digits (s : string) :
  isdigit s = true -> all_digits s = true.
Proof. destruct s; [discriminate | auto]. Qed.

Lemma has_digit_drop_while (p : ascii -> bool) (s : string) :
  has_digit (drop_while p s) = true -> has_digit s = true.
Proof.
  induction s as [|c r IH]; cbn [drop_while has_digit]; [auto|].
  destruct (p c); [|auto]. intros H. rewrite (IH H). apply orb_true_r.
Qed.

Lemma has_digit_drop_while_end (p : ascii -> bool) (s : string) :
  has_digit (drop_while_end p s) = true -> has_digit s = true.
Proof.
  induction s as [|c r IH]; cbn [drop_while_end has_digit]; [auto|].
  destruct (drop_while_end p r) as [|d r'].
  - destruct (p c); cbn [has_digit]; [discriminate|].
    rewrite orb_false_r. intros ->. reflexivity.
  - cbn [has_digit] in *. intros H. apply orb_true_iff in H as [H | H].
    + now rewrite H.
    + rewrite (IH H). apply orb_true_r.
Qed.

Lemma has_digit_remove_char (old : ascii) (s : string) :
  has_digit (remove_char old s) = true -> has_digit s = true.
Proof.
  induction s as [|c r IH]; cbn [remove_char has_digit]; [auto|].
  destruct (Ascii.eqb c old).
  - intros H. rewrite (IH H). apply orb_true_r.
  - cbn [has_digit]. intros H. apply orb_true_iff in H as [H | H].
    + now rewrite H.
    + rewrite (IH H). apply orb_true_r.
Qed.

Lemma int_unsigned_has_digit (s : string) (n : Z) :
  int_unsigned s = Some n -> has_digit s = true.
Proof.
  destruct s as [|c r]; cbn [int_unsigned has_digit]; [discriminate|].
  destruct (is_digit c); [reflexivity | discriminate].
Qed.

(** [int] raises on every text without a digit. *)
Lemma int_has_digit (s : string) (n : Z) :
  int s = Some n -> has_digit s = true.
Proof.
  unfold int. intros H.
  apply (has_digit_drop_while is_c_space), (has_digit_drop_while_end is_c_space).
  destruct (drop_while_end is_c_space (drop_while is_c_space s)) as [|c r];
    [discriminate|].
  assert (T : has_digit r = true -> has_digit (String c r) = true)
    by (cbn [has_digit]; intros ->; apply orb_true_r).
  destruct c as [[] [] [] [] [] [] [] []];
    try (now apply (int_unsigned_has_digit _ n)).
  - apply T. now apply (int_unsigned_has_digit _ n).
  - apply T. destruct (int_unsigned r) as [m|] eqn:U; [|discriminate].
    now apply (int_unsigned_has_digit _ m).
Qed.

Lemma has_digit_clean (text : string) :
  has_digit (clean_number (strip text)) = true -> has_digit text = true.
Proof.
  unfold clean_number, strip. intros H.
  apply has_digit_remove_char, has_digit_remove_char in H.
  now apply has_digit_drop_while_end, has_digit_drop_while in H.
Qed.

(** X6. A row that is wide enough but whose follow-up or unprocessed cell
    holds no digit at all (empty, "N/A", "--") yields no record: it is
    passed over with one warning, and nothing is raised. *)
Theorem row_without_digits_skipped (cols : ColumnIndexMap) (cells : Row)
    (c : Cell) :
  wide_enough cols cells = true ->
  nth_error cells (followup_idx cols) = Some c
  \/ nth_error cells (unprocessed_idx cols) = Some c ->
  has_digit (inner_text c) = false ->
  exists loc, extract_row cols cells = ([EvWarn loc], inr None).
Proof.
  intros W Hc D.
  assert (I : int (clean_number (strip (inner_text c))) = None).
  { destruct (int _) as [n|] eqn:E; [|reflexivity].
    apply int_has_digit, has_digit_clean in E. congruence. }
  destruct (extract_row_cases cols cells) as [[W' _] | [_ [[r X] | X]]];
    [congruence | | exact X].
  apply extract_row_some in X as (_ & lc & fc & uc & _ & Nf & Nu & _ & If & Iu).
  destruct Hc as [Hc | Hc]; congruence.
Qed.

(** X7. The poll loop and the extraction agree on the cells the loop
    counts: a cell counted as non-zero is read by the extraction as a
    strictly positive integer. *)
Theorem counted_cell_parses_positive (c : Cell) :
  cell_nonzero c = true ->
  exists n, int (clean_number (strip (inner_text c))) = Some n /\ 0 < n.
Proof.
  unfold cell_nonzero, cell_check, clean_number. cbv zeta.
  set (cleaned := remove_char "," (strip (inner_text c))).
  destruct (isdigit cleaned) eqn:D; [|discriminate].
  rewrite (remove_char_digits " " cleaned eq_refl (isdigit_all_digits _ D)).
  destruct (int cleaned) as [n|]; [|discriminate].
  destruct (0 <? n) eqn:V; [|discriminate].
  intros _. exists n. split; [reflexivity | now apply Z.ltb_lt].
Qed.

End MoreStringFacts.

(** ** The locator and the column resolution together *)
Section HeaderMatching.
Import PyStr Dom Scraper Props MoreProps.

Lemma last_at_in (p : string -> bool) (hs : list string) (i : nat) :
  last_at p hs i -> exists h, In h hs /\ p h = true.
Proof.
  intros (h & N & P & _). exists h. split; [|exact P].
  now apply nth_error_In in N.
Qed.

(** X8. The locator is no stricter than the column resolution: a table
    whose headers resolve to the three columns is one the locator
    accepts. *)
Theorem resolved_table_qualifies (t : Table) (tr : list event)
    (cols : ColumnIndexMap) :
  resolve_columns (th_texts t) = (tr, inr cols) -> qualifies t = true.
Proof.
  intros E. apply resolve_columns_ok in E as (_ & Ll & Lf & _).
  apply last_at_in in Ll as (hl & Il & Pl), Lf as (hf & If & Pf).
  unfold qualifies. destruct (th_texts t) as [|h0 hs] eqn:T; [destruct Il|].
  apply andb_true_iff. split.
  - apply (contains_header_clean _ hl); [exact Il|].
    now apply contains_h_clean.
  - apply (contains_header_clean _ hf); [exact If|].
    unfold is_followup in Pf. apply orb_true_iff in Pf as [Pf | Pf].
    + apply (contains_longer "FOLLOW" "-UP") in Pf. now apply contains_h_clean.
    + apply (contains_longer "FOLLOW" " UP") in Pf. now apply contains_h_clean.
Qed.

Lemma scan_headers_ext (hs1 hs2 : list string) (i : nat)
    (l f u : option nat) :
  map upper hs1 = map upper hs2 ->
  scan_headers i hs1 l f u = scan_headers i hs2 l f u.
Proof.
  revert hs2 i l f u. induction hs1 as [|h1 hs1 IH]; intros [|h2 hs2] i l f u E;
    try discriminate; [reflexivity|].
  cbn in E. injection E as Eh Er. cbn [scan_headers].
  unfold is_location, is_followup, is_unprocessed.
  rewrite (h_clean_upper h1), (h_clean_upper h2), Eh. now apply IH.
Qed.

(** X9. Header matching ignores letter case: two header lists that are
    equal once upper-cased resolve to the same columns (or both fail),
    and tables carrying them qualify alike for the locator. *)
Theorem header_matching_ignores_case (hs1 hs2 : list string)
    (b1 b2 : nat -> Snapshot) :
  map upper hs1 = map upper hs2 ->
  (forall cols, resolve_columns hs1 = ([], inr cols)
                <-> resolve_columns hs2 = ([], inr cols))
  /\ (markers_unmatched hs1 <-> markers_unmatched hs2)
  /\ qualifies (mkTable hs1 b1) = qualifies (mkTable hs2 b2).
Proof.
  intros E.
  assert (S : scan_headers 0 hs1 None None None
              = scan_headers 0 hs2 None None None)
    by now apply scan_headers_ext.
  assert (R : forall cols, resolve_columns hs1 = ([], inr cols)
                           <-> resolve_columns hs2 = ([], inr cols)).
  { intros cols. unfold resolve_columns. rewrite S.
    destruct (scan_headers 0 hs2 None None None) as [[[l|] [f|]] [u|]];
      unfold ret, raise; split; intros H; try discriminate; exact H. }
  split; [exact R|]. split.
  - rewrite !resolve_columns_fails. unfold resolve_columns. rewrite S.
    destruct (scan_headers 0 hs2 None None None) as [[[l|] [f|]] [u|]];
      unfold ret, raise; split; intros H; try discriminate; reflexivity.
  - assert (H : header_clean hs1 = header_clean hs2)
      by (unfold header_clean; now rewrite !upper_join, E).
    unfold qualifies. cbn [th_texts].
    destruct hs1, hs2; try discriminate; [reflexivity|]. now rewrite H.
Qed.

End HeaderMatching.

(** ** More on [save_to_database] *)
Section WriterAccounting.
Import Scraper Writer WriterProps Session MoreProps.

Variable snapshot_time : Z.
Variable sp : nat -> ExtractedRecord -> proc_outcome.

Lemma outcome_partition (l : list (nat * ExtractedRecord)) :
  (List.length (filter (resolved sp) l) + List.length (filter (fails sp) l)
   + List.length (filter (no_row sp) l))%nat = List.length l
  /\ List.length (flat_map (persisted_row snapshot_time sp) l)
     = List.length (filter (resolved sp) l)
  /\ (List.length (filter (fails sp) l)
      = List.length (filter (unresolved sp) l)
        + List.length (filter (fun ir => match sp (fst ir) (snd ir) with
                                         | ProcRaises => true
                                         | _ => false
                                         end) l))%nat.
Proof.
  induction l as [|[i r] l (IH1 & IH2 & IH3)]; [now repeat split|].
  cbn [filter flat_map]. rewrite length_app.
  unfold resolved, fails, no_row, unresolved, persisted_row in *.
  cbn [fst snd]. destruct (sp i r) as [| |id [c|]]; cbn [List.length];
    lia.
Qed.

Lemma indexed_length (data : list ExtractedRecord) (idx : nat) :
  List.length (indexed_from idx data) = List.length data.
Proof.
  unfold indexed_from. rewrite length_combine, length_seq. apply Nat.min_id.
Qed.

Lemma persisted_rows_shape (l : list (nat * ExtractedRecord)) (row : db_row) :
  In row (flat_map (persisted_row snapshot_time sp) l) ->
  exists i r, In (i, r) l
    /\ row_idx row = i
    /\ row_time row = snapshot_time
    /\ row_location row = location r
    /\ row_followups row = followups r
    /\ row_unprocessed row = unprocessed r
    /\ row_lcode row <> None.
Proof.
  intros H. apply in_flat_map in H as ([i r] & Hin & Hp).
  unfold persisted_row in Hp. cbn [fst snd] in Hp.
  destruct (sp i r) as [| |id [c|]]; cbn in Hp; try contradiction.
  destruct Hp as [<- | []]. exists i, r. cbn. repeat split; auto. discriminate.
Qed.

Lemma in_indexed_record (data : list ExtractedRecord) (idx i : nat)
    (r : ExtractedRecord) :
  In (i, r) (indexed_from idx data) -> In r data.
Proof.
  intros H. apply (in_indexed_from sp) in H. destruct H as [_ H].
  apply nth_error_In in H. exact H.
Qed.

(** X10. Truncate before insert.  Whatever the table and the open
    transaction held before the run, once the truncate has succeeded the
    persisted table holds rows of this run only: each carries the run's
    snapshot time and a location code and the name and counts of one of
    the records, and nothing is left uncommitted.  If the truncate raises,
    the run stops there: the table is as it was and no record has been
    submitted. *)
Theorem snapshot_replaces_table (truncate_ok : bool) (c0 : Conn)
    (data : list ExtractedRecord) :
  (truncate_ok = true ->
     pending (fst (save_to_database snapshot_time truncate_ok sp c0 data)) = []
     /\ forall row,
          In row (committed (fst (save_to_database snapshot_time truncate_ok sp c0 data))) ->
          row_time row = snapshot_time
          /\ row_lcode row <> None
          /\ exists r, In r data
               /\ row_location row = location r
               /\ row_followups row = followups r
               /\ row_unprocessed row = unprocessed r)
  /\ (truncate_ok = false ->
        save_to_database snapshot_time truncate_ok sp c0 data
        = (mkConn (committed c0) (pending c0) (db_log c0 ++ [DbTruncate]), None)).
Proof.
  split; intros ->; [|reflexivity].
  unfold save_to_database, log. cbn [committed pending db_log].
  rewrite save_records_spec by reflexivity. cbn [fst committed pending app].
  split; [reflexivity|]. intros row H.
  apply persisted_rows_shape in H as (i & r & Hin & _ & Ht & Hl & Hf & Hu & Hc).
  repeat split; auto. exists r. split; [|auto].
  now apply in_indexed_record in Hin.
Qed.

End WriterAccounting.

Section FaultyConnection.
Import Scraper Writer WriterProps Session MoreProps WriterFaults.

Variable snapshot_time : Z.
Variable sp : nat -> ExtractedRecord -> proc_outcome.

Section NoFault.
Variables commit_ok skip_rollback_ok handler_rollback_ok : nat -> bool.
Hypothesis commits : forall i, commit_ok i = true.
Hypothesis skip_rollbacks : forall i, skip_rollback_ok i = true.
Hypothesis handler_rollbacks : forall i, handler_rollback_ok i = true.

Lemma save_record_faultless (idx : nat) (r : ExtractedRecord) (c : Conn)
    (t : Tally) :
  WriterFaults.save_record snapshot_time sp commit_ok skip_rollback_ok
    handler_rollback_ok idx r c t
  = (fst (Writer.save_record snapshot_time sp idx r (c, t)),
     inr (snd (Writer.save_record snapshot_time sp idx r (c, t)))).
Proof.
  unfold WriterFaults.save_record, Writer.save_record, handler.
  rewrite commits, skip_rollbacks, handler_rollbacks.
  destruct (execute_proc snapshot_time sp idx r c) as [c1 [| |id [l|]]];
    reflexivity.
Qed.

Lemma save_records_faultless (data : list ExtractedRecord) (idx : nat)
    (c : Conn) (t : Tally) :
  WriterFaults.save_records snapshot_time sp commit_ok skip_rollback_ok
    handler_rollback_ok idx data c t
  = (fst (Writer.save_records snapshot_time sp idx data (c, t)),
     inr (snd (Writer.save_records snapshot_time sp idx data (c, t)))).
Proof.
  revert idx c t. induction data as [|r rest IH]; intros idx c t;
    cbn [WriterFaults.save_records Writer.save_records]; [reflexivity|].
  rewrite save_record_faultless.
  destruct (Writer.save_record snapshot_time sp idx r (c, t)) as [c1 t1].
  cbn [fst snd]. apply IH.
Qed.

(** Without a failing [commit()] or [rollback()] the function is the one
    of [Writer]. *)
Lemma save_to_database_faultless (truncate_ok : bool) (c : Conn)
    (data : list ExtractedRecord) :
  WriterFaults.save_to_database snapshot_time truncate_ok sp commit_ok
    skip_rollback_ok handler_rollback_ok c data
  = lift (Writer.save_to_database snapshot_time truncate_ok sp c data).
Proof.
  unfold WriterFaults.save_to_database, Writer.save_to_database.
  destruct truncate_ok; [|reflexivity].
  rewrite save_records_faultless.
  destruct (Writer.save_records _ _ _ _ _) as [c1 t1]. reflexivity.
Qed.

End NoFault.

(** X11. The counters add up, as long as the connection does not fail.
    In a run whose truncate succeeds and in which no [commit()] and no
    [rollback()] raises, every record is counted once: as inserted, as
    failed, or (when the procedure returns no row) as neither; the
    persisted table has as many rows as were counted inserted; and the
    failures are the records without a location code, which are the ones
    reported, plus the calls of the procedure that raised. *)
Theorem tally_accounts_for_every_record
    (commit_ok skip_rollback_ok handler_rollback_ok : nat -> bool)
    (c0 : Conn) (data : list ExtractedRecord) :
  (forall i, commit_ok i = true) ->
  (forall i, skip_rollback_ok i = true) ->
  (forall i, handler_rollback_ok i = true) ->
  exists c t,
    WriterFaults.save_to_database snapshot_time true sp commit_ok
      skip_rollback_ok handler_rollback_ok c0 data = (c, inr t)
    /\ (inserted t + failed t
        + List.length (filter (no_row sp) (indexed data)))%nat
       = List.length data
    /\ List.length (committed c) = inserted t
    /\ (failed t
        = List.length (locations_without_lcode t)
          + List.length (filter (fun ir => match sp (fst ir) (snd ir) with
                                           | ProcRaises => true
                                           | _ => false
                                           end) (indexed data)))%nat
    /\ map row_location (committed c)
       = map (fun ir => location (snd ir)) (filter (resolved sp) (indexed data)).
Proof.
  intros HC HS HH.
  rewrite (save_to_database_faultless _ _ _ HC HS HH).
  unfold Writer.save_to_database, log. cbn [committed pending db_log].
  rewrite save_records_spec by reflexivity.
  fold (indexed data). eexists _, _. split; [reflexivity|].
  cbn [committed inserted failed locations_without_lcode app Nat.add].
  destruct (outcome_partition snapshot_time sp (indexed data)) as (P1 & P2 & P3).
  unfold indexed in *. rewrite indexed_length in P1.
  rewrite length_map. repeat split; auto.
  clear. induction (indexed_from 1 data) as [|[i r] l IH]; [reflexivity|].
  cbn [flat_map filter]. rewrite map_app, IH.
  unfold persisted_row, resolved. cbn [fst snd].
  destruct (sp i r) as [| |id [c|]]; reflexivity.
Qed.

(** X22. A commit that raises makes the counters disagree with the table.
    When the procedure returns a location code for a record and the
    [commit()] that follows raises, the handler rolls the row back and the
    record is counted both as inserted and as failed; the persisted rows
    and the report are unchanged, and the loop goes on. *)
Theorem failed_commit_counted_twice
    (commit_ok skip_rollback_ok handler_rollback_ok : nat -> bool)
    (idx : nat) (r : ExtractedRecord) (c : Conn) (t : Tally)
    (id : Z) (l : string) :
  sp idx r = ProcRow id (Some l) ->
  commit_ok idx = false ->
  handler_rollback_ok idx = true ->
  exists c',
    WriterFaults.save_record snapshot_time sp commit_ok skip_rollback_ok
      handler_rollback_ok idx r c t
    = (c', inr (mkTally (S (inserted t)) (S (failed t))
                        (locations_without_lcode t)))
    /\ committed c' = committed c
    /\ pending c' = []
    /\ db_log c' = (db_log c ++ [DbExec idx; DbCommit; DbRollback])%list.
Proof.
  intros Hsp HC HH.
  unfold WriterFaults.save_record, execute_proc, handler. rewrite Hsp, HC, HH.
  eexists. split; [reflexivity|].
  unfold rollback, log. cbn [committed pending db_log].
  rewrite <- !app_assoc. repeat split.
Qed.

(** The loop of the faulty writer commits rows of this run only. *)
Lemma faulty_records_rows
    (commit_ok skip_rollback_ok handler_rollback_ok : nat -> bool)
    (P : db_row -> Prop) (data : list ExtractedRecord) :
  (forall i r id l, P (mkDbRow i id snapshot_time (location r) (followups r)
                               (unprocessed r) l)) ->
  forall idx c t,
  Forall P (committed c) -> Forall P (pending c) ->
  Forall P (committed (fst (WriterFaults.save_records snapshot_time sp commit_ok
                              skip_rollback_ok handler_rollback_ok idx data c t))).
Proof.
  intros HP. induction data as [|r rest IH]; intros idx c t Hc Hp;
    cbn [WriterFaults.save_records]; [exact Hc|].
  assert (S1 : Forall P (committed (fst (WriterFaults.save_record snapshot_time
                  sp commit_ok skip_rollback_ok handler_rollback_ok idx r c t)))
               /\ Forall P (pending (fst (WriterFaults.save_record snapshot_time
                  sp commit_ok skip_rollback_ok handler_rollback_ok idx r c t)))).
  { unfold WriterFaults.save_record, execute_proc, handler.
    assert (Q : forall id l, Forall P (pending c ++
                  [mkDbRow idx id snapshot_time (location r) (followups r)
                           (unprocessed r) l])%list)
      by (intros; apply Forall_app; split; [exact Hp | constructor; auto]).
    destruct (sp idx r) as [| |id [l|]];
      destruct (commit_ok idx), (skip_rollback_ok idx),
               (handler_rollback_ok idx);
      cbn [fst snd commit rollback log committed pending];
      repeat split; auto; try (apply Forall_app; split; auto). }
  destruct (WriterFaults.save_record _ _ _ _ _ _ _ _ _) as [c1 [f|t1]];
    cbn [fst] in *; [tauto|]. apply IH; tauto.
Qed.

(** X23. [save_to_database] can fail after the table was cleared.  It
    raises either because the truncate raised, and then nothing but the
    truncate has been attempted and the table is as it was, or because
    the [rollback()] of the handler raised for some record, and then the
    truncate had been committed: the rows there were before the run are
    gone, and the table holds rows of this run only. *)
Theorem fatal_after_truncate
    (truncate_ok : bool)
    (commit_ok skip_rollback_ok handler_rollback_ok : nat -> bool)
    (c0 c : Conn) (data : list ExtractedRecord) (f : fatal) :
  WriterFaults.save_to_database snapshot_time truncate_ok sp commit_ok
    skip_rollback_ok handler_rollback_ok c0 data = (c, inl f) ->
  (f = TruncateFailed
   /\ truncate_ok = false
   /\ c = mkConn (committed c0) (pending c0) (db_log c0 ++ [DbTruncate]))
  \/ (exists idx, f = RollbackFailed idx
        /\ truncate_ok = true
        /\ handler_rollback_ok idx = false
        /\ (1 <= idx <= List.length data)%nat
        /\ forall row, In row (committed c) -> row_time row = snapshot_time).
Proof.
  unfold WriterFaults.save_to_database, log. cbn [committed pending db_log].
  destruct truncate_ok.
  - intros E. right.
    pose proof (faulty_records_rows commit_ok skip_rollback_ok
                  handler_rollback_ok
                  (fun row => row_time row = snapshot_time) data
                  (fun _ _ _ _ => eq_refl) 1
                  (mkConn [] [] ((db_log c0 ++ [DbTruncate]) ++ [DbCommit]))
                  (mkTally 0 0 []) (Forall_nil _) (Forall_nil _)) as R.
    rewrite E in R. cbn [fst] in R.
    assert (G : forall data idx c1 t1,
              WriterFaults.save_records snapshot_time sp commit_ok
                skip_rollback_ok handler_rollback_ok idx data c1 t1 = (c, inl f) ->
              exists i, f = RollbackFailed i /\ handler_rollback_ok i = false
                        /\ (idx <= i < idx + List.length data)%nat).
    { clear. induction data as [|r rest IH]; intros idx c1 t1;
        cbn [WriterFaults.save_records]; [discriminate|].
      destruct (WriterFaults.save_record _ _ _ _ _ _ _ _ _) as [c2 [f2|t2]] eqn:S.
      - intros [= -> ->]. exists idx. cbn [List.length].
        unfold WriterFaults.save_record, handler in S.
        destruct (execute_proc snapshot_time sp idx r c1) as [c3 [| |id [l|]]];
          destruct (commit_ok idx), (skip_rollback_ok idx),
                   (handler_rollback_ok idx);
          try discriminate; injection S as _ <-; repeat split; lia.
      - intros E. apply IH in E as (i & -> & H & B). exists i.
        cbn [List.length]. repeat split; auto; lia. }
    apply G in E as (i & -> & H & B). exists i.
    split; [reflexivity|]. split; [reflexivity|]. split; [exact H|].
    split; [lia|]. intros row Hin. rewrite Forall_forall in R. now apply R.
  - intros [= <- <-]. left. repeat split.
Qed.

End FaultyConnection.


Section WarningReport.
Import Session MoreProps.

(** X12. The closing warning is printed only when some location has no
    code.  Its first line gives the number of such locations; the lines
    after it name the first ten of them, in order, one per line, and no
    other; and when there are more than ten, one more line follows the
    ten names, the last of the report, with the number of those left
    out.  There is no other line. *)
Theorem lcode_warning_shape (locs : list string) :
  (lcode_warning locs = [] <-> locs = [])
  /\ (locs <> [] -> hd_error (lcode_warning locs) = Some (Heading (List.length locs)))
  /\ filter is_name (lcode_warning locs) = map Name (firstn 10 locs)
  /\ (List.length (filter is_name (lcode_warning locs)) <= 10)%nat
  /\ (forall n, In (More n) (lcode_warning locs)
                <-> (10 < List.length locs)%nat
                    /\ (n + 10)%nat = List.length locs)
  /\ (forall i, (i < Nat.min 10 (List.length locs))%nat ->
        exists loc, nth_error locs i = Some loc
                    /\ nth_error (lcode_warning locs) (S i) = Some (Name loc))
  /\ (locs <> [] -> (List.length locs <= 10)%nat ->
        List.length (lcode_warning locs) = S (List.length locs))
  /\ ((10 < List.length locs)%nat ->
        List.length (lcode_warning locs) = 12%nat
        /\ nth_error (lcode_warning locs) 11
           = Some (More (List.length locs - 10)))
  /\ (forall i n, nth_error (lcode_warning locs) i = Some (Heading n) -> i = 0%nat)
  /\ (forall i n, nth_error (lcode_warning locs) i = Some (More n) -> i = 11%nat).
Proof.
  assert (F : forall l, filter is_name (map Name l) = map Name l).
  { induction l as [|x l IH]; cbn; [reflexivity | now rewrite IH]. }
  assert (N : forall l n, ~ In (More n) (map Name l)).
  { induction l as [|x l IH]; cbn; intros n H; [exact H|].
    destruct H as [H | H]; [discriminate | now apply (IH n)]. }
  assert (NM : forall l i, (i < List.length l)%nat ->
             exists loc, nth_error l i = Some loc
                         /\ nth_error (map Name l) i = Some (Name loc)).
  { induction l as [|x l IH]; intros [|i] Hi; cbn [List.length] in Hi;
      try lia; cbn [nth_error map].
    - now exists x.
    - apply IH. lia. }
  assert (NK : forall l i ev, nth_error (map Name l) i = Some ev ->
                              exists loc, ev = Name loc).
  { induction l as [|x l IH]; intros [|i] ev; cbn [nth_error map];
      try discriminate.
    - intros [= <-]. now exists x.
    - apply IH. }
  destruct locs as [|x locs].
  - cbn [lcode_warning]. split; [tauto|]. split; [congruence|].
    split; [reflexivity|]. split; [cbn; lia|].
    split; [intros n; cbn; lia|].
    split; [intros i; cbn; lia|].
    split; [congruence|]. split; [cbn; lia|].
    split; intros [|i] n; discriminate.
  - assert (U : lcode_warning (x :: locs)
                = (Heading (List.length (x :: locs))
                   :: map Name (firstn 10 (x :: locs))
                   ++ (if (10 <? List.length (x :: locs))%nat
                       then [More (List.length (x :: locs) - 10)] else []))%list)
      by reflexivity.
    rewrite U. clear U.
    assert (NE : List.length (x :: locs) <> 0%nat) by discriminate.
    split; [split; discriminate|].
    split; [reflexivity|].
    set (l := x :: locs) in *. clearbody l.
    assert (LF : List.length (map Name (firstn 10 l))
                 = Nat.min 10 (List.length l))
      by (rewrite length_map; apply length_firstn).
    assert (FI : forall i loc, nth_error (firstn 10 l) i = Some loc ->
                               nth_error l i = Some loc).
    { clear. generalize 10%nat. induction l as [|y l IH]; intros [|k] [|i] loc;
        cbn [firstn nth_error]; try discriminate; auto. apply IH. }
    cbn [filter is_name]. rewrite filter_app, F.
    assert (T : filter is_name
                  (if (10 <? List.length l)%nat
                   then [More (List.length l - 10)] else []) = [])
      by (destruct (10 <? List.length l)%nat; reflexivity).
    rewrite T, app_nil_r. split; [reflexivity|]. split.
    { rewrite length_map, length_firstn. lia. }
    split.
    { intros n. cbn [In]. rewrite in_app_iff.
      destruct (10 <? List.length l)%nat eqn:E.
      * apply Nat.ltb_lt in E. cbn [In]. split.
        -- intros [H | [H | [[= <-] | []]]];
             [discriminate | destruct (N _ _ H) | split; lia].
        -- intros [_ H]. right. right. left. f_equal. lia.
      * apply Nat.ltb_ge in E. split.
        -- intros [H | [H | []]]; [discriminate | destruct (N _ _ H)].
        -- intros [H _]. lia. }
    split.
    { intros i Hi. cbn [nth_error]. rewrite nth_error_app1 by lia.
      destruct (NM (firstn 10 l) i) as (loc & H1 & H2);
        [rewrite length_firstn; lia|].
      exists loc. split; [now apply FI | exact H2]. }
    split.
    { intros _ Hl. cbn [List.length]. rewrite length_app, LF.
      destruct (10 <? List.length l)%nat eqn:E;
        [apply Nat.ltb_lt in E; lia|]. cbn [List.length]. lia. }
    split.
    { intros Hl. apply Nat.ltb_lt in Hl as E. rewrite E. split.
      - cbn [List.length]. rewrite length_app, LF. cbn [List.length]. lia.
      - change (nth_error (?h :: ?t) 11) with (nth_error t 10).
        rewrite nth_error_app2 by lia.
        rewrite LF. replace (10 - Nat.min 10 (List.length l))%nat with 0%nat by lia.
        reflexivity. }
    split.
    { intros [|i] n; [reflexivity|]. cbn [nth_error]. intros H.
      destruct (Nat.lt_ge_cases i (List.length (map Name (firstn 10 l))))
        as [Hi | Hi].
      - rewrite nth_error_app1 in H by exact Hi.
        apply NK in H as (loc & H). discriminate.
      - rewrite nth_error_app2 in H by exact Hi.
        destruct (10 <? List.length l)%nat;
          destruct (i - List.length (map Name (firstn 10 l)))%nat as [|[|j]];
          discriminate. }
    { intros [|i] n; [discriminate|]. cbn [nth_error]. intros H.
      destruct (Nat.lt_ge_cases i (List.length (map Name (firstn 10 l))))
        as [Hi | Hi].
      - rewrite nth_error_app1 in H by exact Hi.
        apply NK in H as (loc & H). discriminate.
      - rewrite nth_error_app2 in H by exact Hi.
        destruct (10 <? List.length l)%nat eqn:E.
        + apply Nat.ltb_lt in E.
          destruct (i - List.length (map Name (firstn 10 l)))%nat as [|[|j]] eqn:D;
            try discriminate. lia.
        + destruct (i - List.length (map Name (firstn 10 l)))%nat as [|[|j]];
            discriminate. }
Qed.

End WarningReport.

(** ** [login] and [run] *)
Section SessionFacts.
Import Dom Scraper Writer Session MoreProps.

(** Awaited calls stop at the first that raises. *)
Lemma perform_spec (answer : page_action -> step_result)
    (acts : list page_action) :
  (perform answer acts = (acts, StepOk)
   /\ Forall (fun a => answer a = StepOk) acts)
  \/ (exists pre act rest,
        acts = (pre ++ act :: rest)%list
        /\ Forall (fun a => answer a = StepOk) pre
        /\ answer act <> StepOk
        /\ perform answer acts = ((pre ++ [act])%list, answer act)).
Proof.
  induction acts as [|a acts IH]; [left; split; [reflexivity | constructor]|].
  cbn [perform]. destruct (answer a) eqn:A.
  - destruct IH as [[E F] | (pre & act & rest & -> & F & N & E)]; rewrite E.
    + left. split; [reflexivity | now constructor].
    + right. exists (a :: pre), act, rest. repeat split; auto.
  - right. exists [], a, acts. rewrite A. repeat split; auto. discriminate.
  - right. exists [], a, acts. rewrite A. repeat split; auto. discriminate.
Qed.

Lemma login_cases (w : World) (user pass : string) :
  (login w user pass = (login_script user pass, StepOk)
   /\ Forall (answers_ok w) (login_script user pass))
  \/ (exists pre act rest,
        login_script user pass = (pre ++ act :: rest)%list
        /\ Forall (answers_ok w) pre
        /\ reply w act <> StepOk
        /\ login w user pass = ((pre ++ [act])%list, reply w act)).
Proof. apply perform_spec. Qed.

Lemma script_fill (user pass : string) (k : nat) (s : selector) (v : string) :
  nth_error (login_script user pass) k = Some (Fill s v) ->
  (k = 2%nat /\ s = UsernameInput /\ v = user)
  \/ (k = 3%nat /\ s = PasswordInput /\ v = pass).
Proof.
  unfold login_script. intros H.
  destruct k as [|[|[|[|[|[|[|k]]]]]]]; cbn in H; try discriminate.
  - injection H as <- <-. now left.
  - injection H as <- <-. now right.
  - destruct k; discriminate.
Qed.

(** X13. [login] types the credentials only into a form that has
    appeared: whenever the password is entered, the page had loaded, the
    username field had shown up within its timeout and the username had
    been entered; what is typed is the stored password, into the password
    field; and [login] succeeds exactly when each of its seven calls
    does, having then made all of them in order. *)
Theorem login_guards_credentials (w : World) (user pass : string) :
  (forall s v,
      In (Fill s v) (fst (login w user pass)) ->
      reply w (Goto url 30000) = StepOk
      /\ reply w (WaitForSelector UsernameInput 10000) = StepOk)
  /\ (forall v,
        In (Fill PasswordInput v) (fst (login w user pass)) ->
        v = pass /\ reply w (Fill UsernameInput user) = StepOk)
  /\ (snd (login w user pass) = StepOk
      <-> Forall (answers_ok w) (login_script user pass))
  /\ (snd (login w user pass) = StepOk ->
      fst (login w user pass) = login_script user pass).
Proof.
  destruct (login_cases w user pass)
    as [[E F] | (pre & act & rest & S & F & N & E)]; rewrite E; cbn [fst snd].
  - pose proof F as F'. unfold login_script in F'.
    inversion F' as [|? ? G1 F1]; subst. inversion F1 as [|? ? G2 F2]; subst.
    inversion F2 as [|? ? G3 F3]; subst.
    split; [|split; [|split]]; auto; try tauto.
    intros v Hin. cbn in Hin.
    repeat (destruct Hin as [Hin | Hin]; try discriminate); try contradiction.
    injection Hin as <-. auto.
  - assert (Q : forall k a, nth_error (pre ++ [act])%list k = Some a ->
                  nth_error (login_script user pass) k = Some a
                  /\ forall j b, (j < k)%nat ->
                       nth_error (login_script user pass) j = Some b ->
                       reply w b = StepOk).
    { intros k a Hk. assert (Hlt : (k < List.length (pre ++ [act]))%nat)
        by (apply nth_error_Some; congruence).
      rewrite length_app in Hlt. cbn in Hlt. split.
      - rewrite S. destruct (Nat.eq_dec k (List.length pre)) as [->|Hne].
        + rewrite nth_error_app2 in Hk |- * by lia.
          rewrite Nat.sub_diag in *. cbn in *. exact Hk.
        + rewrite nth_error_app1 in Hk |- * by lia. exact Hk.
      - intros j b Hj Hb. rewrite S in Hb.
        rewrite nth_error_app1 in Hb by lia.
        apply nth_error_In in Hb. rewrite Forall_forall in F. now apply F. }
    split; [|split; [|split]].
    + intros s v Hin. apply In_nth_error in Hin as [k Hk].
      destruct (Q _ _ Hk) as [Hs Hb].
      apply script_fill in Hs as [(-> & _) | (-> & _)];
        split; first [ apply (Hb 0%nat); [lia | reflexivity]
                     | apply (Hb 1%nat); [lia | reflexivity] ].
    + intros v Hin. apply In_nth_error in Hin as [k Hk].
      destruct (Q _ _ Hk) as [Hs Hb].
      apply script_fill in Hs as [(_ & X & _) | (-> & _ & ->)];
        [discriminate|].
      split; [reflexivity|]. apply (Hb 2%nat); [lia | reflexivity].
    + split; [intros H; congruence|]. intros G. rewrite S in G.
      apply Forall_app in G as [_ G]. inversion G; subst. contradiction.
    + intros H. congruence.
Qed.

Lemma filter_map_none {A B} (p : B -> bool) (f : A -> B) (l : list A) :
  (forall a, p (f a) = false) -> filter p (map f l) = [].
Proof.
  intros H. induction l as [|a l IH]; cbn; [reflexivity|]. now rewrite H.
Qed.

Lemma run_unfold (w : World) :
  run w
  = if negb (has_credentials w)
    then mkOutcome [] (db0 w) (inl CredentialsMissing)
    else if negb (truthy (keyring w "AIDevSQLDatabase" "TroyAI"))
    then mkOutcome [] (db0 w) (inl DbCredentialsMissing)
    else if negb (connect_ok w)
    then mkOutcome [RConnect (conn_str (db_pass_of w))] (db0 w) (inl ConnectError)
    else let o := with_browser w (user_of w) (pass_of w) in
         mkOutcome (RConnect (conn_str (db_pass_of w)) :: trace o ++ [RDbClose])
                   (database o) (result o).
Proof.
  unfold run, get_credentials, get_db_connection, init, has_credentials,
         user_of, pass_of, db_pass_of.
  cbn [username password db_connection].
  destruct (keyring w "CallPotential" "Username") as [[|c1 u]|];
    destruct (keyring w "CallPotential" "Password") as [[|c2 p]|];
    cbn [truthy negb orb andb stored]; try reflexivity.
  destruct (keyring w "AIDevSQLDatabase" "TroyAI") as [[|c3 d]|];
    cbn [truthy negb stored]; try reflexivity.
  destruct (connect_ok w); reflexivity.
Qed.

(** The three shapes of what happens once the page exists. *)
Lemma with_page_cases (w : World) (user pass : string) :
  (exists acts f,
      with_page w user pass = mkOutcome (map RPage acts) (db0 w) (inl f)
      /\ ((snd (login w user pass) = StepError /\ f = LoginError)))
  \/ (exists acts,
        with_page w user pass
        = mkOutcome (map RPage acts ++ [RErrorScreenshot]) (db0 w) (inl LoginTimeout)
        /\ snd (login w user pass) = StepTimeout)
  \/ (login w user pass = (login_script user pass, StepOk)
      /\ ((exists evs e,
             scrape_table (frames w) = (evs, inl e)
             /\ with_page w user pass
                = mkOutcome (map RPage (login_script user pass) ++ map RScrape evs)
                            (db0 w) (inl (ScrapeError e)))
          \/ exists evs data,
               scrape_table (frames w) = (evs, inr data)
               /\ with_page w user pass
                  = mkOutcome (map RPage (login_script user pass)
                               ++ map RScrape evs ++ [RSave])
                      (fst (save_to_database (snapshot_time w) (truncate_ok w)
                                             (sp w) (db0 w) data))
                      (match snd (save_to_database (snapshot_time w) (truncate_ok w)
                                                   (sp w) (db0 w) data) with
                       | Some t => inr t
                       | None => inl SaveError
                       end))).
Proof.
  unfold with_page.
  destruct (login_cases w user pass)
    as [[E F] | (pre & act & rest & S & F & N & E)]; rewrite E.
  - right. right. split; [reflexivity|].
    destruct (scrape_table (frames w)) as [evs [e | data]].
    + left. now exists evs, e.
    + right. exists evs, data. split; [reflexivity|].
      destruct (save_to_database _ _ _ _ _) as [c [t|]]; reflexivity.
  - cbn [snd]. destruct (reply w act); [congruence| |].
    + right. left. now exists (pre ++ [act])%list.
    + left. exists (pre ++ [act])%list, LoginError. auto.
Qed.

End SessionFacts.

Section RunFacts.
Import Dom Scraper Writer Session MoreProps.

Lemma with_page_no_close (w : World) (user pass : string) :
  filter is_db_close (trace (with_page w user pass)) = []
  /\ filter is_browser_close (trace (with_page w user pass)) = [].
Proof.
  destruct (with_page_cases w user pass)
    as [(acts & f & E & _) | [(acts & E & _)
        | (_ & [(evs & e & _ & E) | (evs & data & _ & E)])]];
    rewrite E; cbn [trace]; rewrite ?filter_app;
    rewrite ?(filter_map_none is_db_close RPage),
            ?(filter_map_none is_browser_close RPage),
            ?(filter_map_none is_db_close RScrape),
            ?(filter_map_none is_browser_close RScrape); auto.
Qed.

Lemma with_browser_unfold (w : World) (user pass : string) :
  with_browser w user pass
  = if launch_ok w && context_ok w && page_ok w
    then mkOutcome ([RLaunch; RNewContext; RNewPage]
                    ++ trace (with_page w user pass) ++ [RBrowserClose])
                   (database (with_page w user pass))
                   (result (with_page w user pass))
    else mkOutcome (if negb (launch_ok w) then [RLaunch]
                    else if negb (context_ok w) then [RLaunch; RNewContext]
                    else [RLaunch; RNewContext; RNewPage])
                   (db0 w) (inl BrowserError).
Proof.
  unfold with_browser.
  destruct (launch_ok w), (context_ok w), (page_ok w); reflexivity.
Qed.

(** What [run] leaves and returns, once the world lets it connect. *)
Lemma run_connected (w : World) :
  connects w = true ->
  run w
  = mkOutcome (RConnect (conn_str (db_pass_of w))
               :: trace (with_browser w (user_of w) (pass_of w)) ++ [RDbClose])
              (database (with_browser w (user_of w) (pass_of w)))
              (result (with_browser w (user_of w) (pass_of w))).
Proof.
  unfold connects. intros H.
  apply andb_true_iff in H as [H C]. apply andb_true_iff in H as [H D].
  rewrite run_unfold. unfold has_credentials. rewrite H, D, C. reflexivity.
Qed.

Lemma run_not_connected (w : World) :
  connects w = false ->
  database (run w) = db0 w
  /\ filter is_db_close (trace (run w)) = []
  /\ filter is_browser_close (trace (run w)) = []
  /\ (result (run w) = inl CredentialsMissing
      \/ result (run w) = inl DbCredentialsMissing
      \/ result (run w) = inl ConnectError).
Proof.
  unfold connects. rewrite run_unfold. unfold has_credentials.
  destruct (truthy (keyring w "CallPotential" "Username")
            && truthy (keyring w "CallPotential" "Password")); cbn [negb andb];
    [|intros _; cbn; auto 7].
  destruct (truthy (keyring w "AIDevSQLDatabase" "TroyAI")); cbn [negb andb];
    [|intros _; cbn; auto 7].
  destruct (connect_ok w); [discriminate|]. intros _. cbn. auto 7.
Qed.

(** X14. Release on every path.  The database connection is closed
    exactly once when it was established and never otherwise, and closing
    it is then the last thing [run] does; the browser is closed exactly
    once when the page was created, just before the connection, whether
    login, scraping or saving succeeded or raised. *)
Theorem run_releases_resources (w : World) :
  List.length (filter is_db_close (trace (run w)))
  = (if connects w then 1 else 0)%nat
  /\ List.length (filter is_browser_close (trace (run w)))
     = (if opens_page w then 1 else 0)%nat
  /\ (connects w = true -> exists pre, trace (run w) = (pre ++ [RDbClose])%list)
  /\ (opens_page w = true ->
      exists pre, trace (run w) = (pre ++ [RBrowserClose; RDbClose])%list).
Proof.
  unfold opens_page. destruct (connects w) eqn:C.
  - rewrite (run_connected w C). cbn [trace andb].
    rewrite with_browser_unfold.
    destruct (with_page_no_close w (user_of w) (pass_of w)) as [P1 P2].
    destruct (launch_ok w && context_ok w && page_ok w) eqn:B.
    + assert (B' : launch_ok w && context_ok w && page_ok w = true) by exact B.
      cbn [trace filter is_db_close is_browser_close app].
      rewrite !filter_app, P1, P2. cbn.
      split; [reflexivity|]. split; [reflexivity|]. split.
      * intros _.
        exists (RConnect (conn_str (db_pass_of w)) :: [RLaunch; RNewContext; RNewPage]
                ++ trace (with_page w (user_of w) (pass_of w))
                ++ [RBrowserClose])%list.
        cbn. now rewrite <- !app_assoc.
      * intros _.
        exists (RConnect (conn_str (db_pass_of w)) :: [RLaunch; RNewContext; RNewPage]
                ++ trace (with_page w (user_of w) (pass_of w)))%list.
        cbn. now rewrite <- !app_assoc.
    + cbn [trace].
      assert (N : forall l, In l [[RLaunch]; [RLaunch; RNewContext];
                                  [RLaunch; RNewContext; RNewPage]] ->
                  List.length (filter is_db_close
                     (RConnect (conn_str (db_pass_of w)) :: l ++ [RDbClose])) = 1%nat
                  /\ List.length (filter is_browser_close
                     (RConnect (conn_str (db_pass_of w)) :: l ++ [RDbClose])) = 0%nat).
      { intros l [<- | [<- | [<- | []]]]; now split. }
      destruct (launch_ok w), (context_ok w), (page_ok w); try discriminate;
        cbn; (split; [reflexivity|]; split; [reflexivity|]; split;
              [intros _|discriminate]);
        first [ now exists [RConnect (conn_str (db_pass_of w)); RLaunch]
              | now exists [RConnect (conn_str (db_pass_of w)); RLaunch; RNewContext]
              | now exists [RConnect (conn_str (db_pass_of w)); RLaunch;
                            RNewContext; RNewPage] ].
  - destruct (run_not_connected w C) as (_ & D & B & _).
    rewrite D, B. cbn [andb]. repeat split; auto; discriminate.
Qed.

(** X15. Provided no [commit()] and no [rollback()] raises, which is what
    [Writer] assumes of the connection, a run can fail at six stages only
    (credentials, connection, browser, login, scraping, truncate), and a
    run that fails leaves the snapshot table as it found it: the persisted
    rows and the open transaction are those of before; and unless it is
    the truncate that raised, the database has not been called at all.
    Without that proviso the function can also fail after the truncate
    was committed (see [WriterFaults]), and this does not hold. *)
Theorem failed_run_keeps_table (w : World) (f : failure) :
  result (run w) = inl f ->
  committed (database (run w)) = committed (db0 w)
  /\ pending (database (run w)) = pending (db0 w)
  /\ (f <> SaveError -> database (run w) = db0 w)
  /\ (f = SaveError ->
      db_log (database (run w)) = (db_log (db0 w) ++ [DbTruncate])%list).
Proof.
  destruct (connects w) eqn:C.
  - rewrite (run_connected w C). cbn [result database].
    rewrite with_browser_unfold.
    destruct (launch_ok w && context_ok w && page_ok w);
      cbn [result database]; [|intros [= <-]; repeat split; auto; discriminate].
    destruct (with_page_cases w (user_of w) (pass_of w))
      as [(acts & f' & E & _ & ->) | [(acts & E & _)
          | (_ & [(evs & e & _ & E) | (evs & data & _ & E)])]];
      rewrite E; cbn [result database];
      try (intros [= <-]; repeat split; auto; discriminate).
    unfold save_to_database.
    destruct (truncate_ok w).
    + destruct (save_records _ _ _ _ _) as [c t]. discriminate.
    + cbn. intros [= <-]. repeat split; auto. congruence.
  - destruct (run_not_connected w C) as (D & _ & _ & [R | [R | R]]);
      rewrite D, R; intros [= <-]; repeat split; auto; discriminate.
Qed.

(** X16. A run succeeds only by going through every stage: the
    connection and the page are established, login makes its seven calls,
    [scrape_table] returns a list of records that is not empty, and that
    list is what is saved: the tally returned and the database left are
    those of [save_to_database] on it, with the truncate done.  The
    browser and then the connection are closed at the end. *)
Theorem run_success_stages (w : World) (t : Tally) :
  result (run w) = inr t ->
  opens_page w = true
  /\ login w (user_of w) (pass_of w)
     = (login_script (user_of w) (pass_of w), StepOk)
  /\ truncate_ok w = true
  /\ exists evs data,
       scrape_table (frames w) = (evs, inr data)
       /\ data <> []
       /\ save_to_database (snapshot_time w) true (sp w) (db0 w) data
          = (database (run w), Some t)
       /\ trace (run w)
          = (RConnect (conn_str (db_pass_of w))
             :: [RLaunch; RNewContext; RNewPage]
             ++ map RPage (login_script (user_of w) (pass_of w))
             ++ map RScrape evs
             ++ [RSave; RBrowserClose; RDbClose])%list.
Proof.
  unfold opens_page. destruct (connects w) eqn:C.
  - rewrite (run_connected w C). cbn [result database trace andb].
    rewrite with_browser_unfold.
    destruct (launch_ok w && context_ok w && page_ok w) eqn:B;
      cbn [result database trace]; [|discriminate].
    destruct (with_page_cases w (user_of w) (pass_of w))
      as [(acts & f' & E & _ & ->) | [(acts & E & _)
          | (L & [(evs & e & _ & E) | (evs & data & S & E)])]];
      rewrite E; cbn [result database trace]; try discriminate.
    destruct (save_to_database _ _ _ _ data) as [c [t'|]] eqn:V;
      cbn [fst snd]; [|discriminate].
    intros [= ->].
    assert (T : truncate_ok w = true).
    { unfold save_to_database in V. destruct (truncate_ok w); [reflexivity|].
      discriminate. }
    rewrite T in V.
    split; [reflexivity|]. split; [exact L|]. split; [exact T|].
    exists evs, data. split; [exact S|]. split.
    + intros ->. now apply scrape_table_nonempty in S.
    + split; [exact V|]. cbn. rewrite <- !app_assoc. reflexivity.
  - destruct (run_not_connected w C) as (_ & _ & _ & [R | [R | R]]);
      rewrite R; discriminate.
Qed.

(** X17. The error screenshot is taken exactly when login times out, and
    then just before the browser and the connection are closed; every
    other failure is re-raised without it. *)
Theorem error_screenshot_iff_login_timeout (w : World) :
  (In RErrorScreenshot (trace (run w)) <-> result (run w) = inl LoginTimeout)
  /\ (result (run w) = inl LoginTimeout ->
      exists pre,
        trace (run w) = (pre ++ [RErrorScreenshot; RBrowserClose; RDbClose])%list
        /\ opens_page w = true
        /\ snd (login w (user_of w) (pass_of w)) = StepTimeout).
Proof.
  assert (NP : forall l, ~ In RErrorScreenshot (map RPage l)).
  { induction l as [|a l IH]; cbn; [tauto|]. intros [H | H];
      [discriminate | tauto]. }
  assert (NS : forall l, ~ In RErrorScreenshot (map RScrape l)).
  { induction l as [|a l IH]; cbn; [tauto|]. intros [H | H];
      [discriminate | tauto]. }
  unfold opens_page. destruct (connects w) eqn:C.
  - rewrite (run_connected w C). cbn [result trace andb].
    rewrite with_browser_unfold.
    destruct (launch_ok w && context_ok w && page_ok w) eqn:B;
      cbn [result trace].
    + destruct (with_page_cases w (user_of w) (pass_of w))
        as [(acts & f' & E & _ & ->) | [(acts & E & T)
            | (L & [(evs & e & _ & E) | (evs & data & S & E)])]];
        rewrite E; cbn [result trace].
      * split; [|discriminate]. split; [|discriminate].
        repeat (rewrite in_app_iff || cbn [In app]).
        intuition (try discriminate). exfalso. eapply NP. eassumption.
      * split.
        -- split; [reflexivity|]. intros _.
           repeat (rewrite in_app_iff || cbn [In app]). tauto.
        -- intros _.
           exists (RConnect (conn_str (db_pass_of w))
                   :: [RLaunch; RNewContext; RNewPage] ++ map RPage acts)%list.
           split; [|auto]. cbn. rewrite <- !app_assoc. reflexivity.
      * split; [|discriminate]. split; [|discriminate].
        repeat (rewrite in_app_iff || cbn [In app]).
        intuition (try discriminate); exfalso;
          first [eapply NP; eassumption | eapply NS; eassumption].
      * assert (R : forall o : option Tally,
                 match o with Some t => @inr failure Tally t | None => inl SaveError end
                 <> inl LoginTimeout) by (intros [t|]; discriminate).
        split; [|intros H; now apply R in H].
        split; [|intros H; now apply R in H].
        repeat (rewrite in_app_iff || cbn [In app]).
        intuition (try discriminate); exfalso;
          first [eapply NP; eassumption | eapply NS; eassumption].
    + split; [|discriminate]. split; [|discriminate].
      destruct (launch_ok w), (context_ok w), (page_ok w); try discriminate;
        cbn; intuition (try discriminate).
  - destruct (run_not_connected w C) as (_ & _ & _ & R).
    assert (N : ~ In RErrorScreenshot (trace (run w))).
    { rewrite run_unfold. unfold connects in C.
      change (has_credentials w
              && truthy (keyring w "AIDevSQLDatabase" "TroyAI")
              && connect_ok w = false) in C.
      destruct (has_credentials w); cbn [negb]; [|cbn; tauto].
      destruct (truthy (keyring w "AIDevSQLDatabase" "TroyAI")); cbn [negb];
        [|cbn; tauto].
      destruct (connect_ok w); [discriminate|].
      cbn. intuition discriminate. }
    cbn [andb].
    split; [split; [tauto|]|]; intros H;
      destruct R as [R | [R | R]]; rewrite R in H; discriminate.
Qed.

End RunFacts.

Section Credentials.
Import Dom Scraper Writer Session MoreProps.

Lemma with_browser_result (w : World) (user pass : string) :
  result (with_browser w user pass) <> inl CredentialsMissing
  /\ result (with_browser w user pass) <> inl DbCredentialsMissing
  /\ result (with_browser w user pass) <> inl ConnectError.
Proof.
  rewrite with_browser_unfold.
  destruct (launch_ok w && context_ok w && page_ok w); cbn [result];
    [|repeat split; discriminate].
  destruct (with_page_cases w user pass)
    as [(acts & f' & E & _ & ->) | [(acts & E & T)
        | (L & [(evs & e & _ & E) | (evs & data & S & E)])]];
    rewrite E; cbn [result]; repeat split; try discriminate;
    destruct (snd (save_to_database _ _ _ _ _)); discriminate.
Qed.

(** X18. [run] asks for its credentials first and goes no further
    without them: it fails with the credentials error exactly when the
    dashboard username or password is missing or empty, with the database
    credentials error exactly when those are stored but the database
    password is missing or empty, and in both cases nothing has been
    attempted; a connection is only ever opened with the stored database
    password in the connection string. *)
Theorem run_requires_credentials (w : World) :
  (result (run w) = inl CredentialsMissing <-> has_credentials w = false)
  /\ (result (run w) = inl DbCredentialsMissing
      <-> has_credentials w = true
          /\ truthy (keyring w "AIDevSQLDatabase" "TroyAI") = false)
  /\ (has_credentials w = false
      \/ truthy (keyring w "AIDevSQLDatabase" "TroyAI") = false ->
      trace (run w) = [] /\ database (run w) = db0 w)
  /\ (forall cs, In (RConnect cs) (trace (run w)) ->
        cs = conn_str (db_pass_of w)
        /\ has_credentials w = true
        /\ truthy (keyring w "AIDevSQLDatabase" "TroyAI") = true).
Proof.
  assert (NP : forall cs l, ~ In (RConnect cs) (map RPage l)).
  { intros cs. induction l as [|a l IH]; cbn; [tauto|]. intros [H | H];
      [discriminate | tauto]. }
  assert (NS : forall cs l, ~ In (RConnect cs) (map RScrape l)).
  { intros cs. induction l as [|a l IH]; cbn; [tauto|]. intros [H | H];
      [discriminate | tauto]. }
  rewrite run_unfold.
  destruct (has_credentials w); cbn [negb];
    [|cbn; repeat split; auto; try discriminate; try tauto;
      intros [H _]; discriminate].
  destruct (truthy (keyring w "AIDevSQLDatabase" "TroyAI")); cbn [negb];
    [|cbn; repeat split; auto; try discriminate; tauto].
  destruct (connect_ok w); cbn [negb].
  - cbv zeta. cbn [result trace database].
    destruct (with_browser_result w (user_of w) (pass_of w)) as (R1 & R2 & R3).
    split; [split; [intros H; now apply R1 in H | discriminate]|].
    split; [split; [intros H; now apply R2 in H | intros [_ H]; discriminate]|].
    split; [intros [H | H]; discriminate|].
    intros cs [[= <-] | H]; [auto|]. exfalso.
    rewrite with_browser_unfold in H.
    destruct (launch_ok w && context_ok w && page_ok w); cbn [trace] in H.
    + destruct (with_page_cases w (user_of w) (pass_of w))
        as [(acts & f' & E & _ & ->) | [(acts & E & T)
            | (L & [(evs & e & _ & E) | (evs & data & S & E)])]];
        rewrite E in H; cbn [trace] in H;
        repeat (rewrite in_app_iff in H || cbn [In app] in H);
        intuition (try discriminate);
        first [eapply NP; eassumption | eapply NS; eassumption].
    + destruct (launch_ok w), (context_ok w), (page_ok w); cbn in H;
        intuition discriminate.
  - cbn [result trace database].
    split; [split; discriminate|].
    split; [split; [discriminate | intros [_ H]; discriminate]|].
    split; [intros [H | H]; discriminate|].
    intros cs [[= <-] | []]. auto.
Qed.

End Credentials.

(** ** The further theorems at concrete inputs *)
Section MoreInstances.
Import PyStr Dom Scraper Props Writer WriterProps Session MoreProps.
Import Examples MoreExamples.

Lemma scrape_table_success_witness :
  exists tr data,
    scrape_table hydrating_page = (tr, inr data)
    /\ data = repeat (mkRecord "Site" 4 2) 5
    /\ data <> []
    /\ exists t k tr',
         first_match hydrating_page t
         /\ (k < 20)%nat
         /\ (forall j, (j < k)%nat -> populated (rows_of t j) = false)
         /\ populated (rows_of t k) = true
         /\ row_extractor (th_texts t) (rows_of t k) = (tr', inr data)
         /\ tr = (EvSleep 3 :: failed_attempts 0 k ++ [EvAttempt k] ++ tr')%list
         /\ (forall j, (j <= k)%nat -> check_rows (rows_of t j) <> None).
Proof.
  assert (E : scrape_table hydrating_page
              = ([EvSleep 3; EvAttempt 0; EvSleep 3; EvAttempt 1; EvSleep 3;
                  EvAttempt 2],
                 inr (repeat (mkRecord "Site" 4 2) 5))) by reflexivity.
  eexists _, _. split; [exact E|]. split; [reflexivity|].
  exact (scrape_table_success hydrating_page _ _ E).
Defined.

Lemma extract_rows_accounting_witness :
  extract_rows (mkCols 0 1 2) site_rows
  = ([EvWarn "Site C"], inr [mkRecord "Site A" 10 3; mkRecord "Site B" 0 0])
  /\ (2 + 1)%nat = List.length (filter (wide_enough (mkCols 0 1 2)) site_rows)
  /\ Forall (fun ev => is_warn ev = true) [EvWarn "Site C"]
  /\ (2 <= List.length site_rows)%nat.
Proof.
  assert (E : extract_rows (mkCols 0 1 2) site_rows
              = ([EvWarn "Site C"],
                 inr [mkRecord "Site A" 10 3; mkRecord "Site B" 0 0]))
    by reflexivity.
  split; [exact E|].
  exact (extract_rows_accounting (mkCols 0 1 2) site_rows _ _ E).
Defined.

Lemma poll_result_populated_witness :
  poll hydrating_table
  = ([EvAttempt 0; EvSleep 3; EvAttempt 1; EvSleep 3; EvAttempt 2], inr live_rows)
  /\ live_rows <> []
  /\ (10 <= nonzero_cells live_rows)%nat.
Proof.
  assert (E : poll hydrating_table
              = ([EvAttempt 0; EvSleep 3; EvAttempt 1; EvSleep 3; EvAttempt 2],
                 inr live_rows)) by reflexivity.
  split; [exact E|].
  destruct (poll_result_populated hydrating_table _ _ E) as (A & B & _).
  split; [exact A | exact B].
Defined.

Lemma row_without_digits_skipped_witness :
  wide_enough (mkCols 0 1 2) (row3 "Site C" "N/A" "5") = true
  /\ nth_error (row3 "Site C" "N/A" "5") 1 = Some (text_cell "N/A")
  /\ has_digit "N/A" = false
  /\ exists loc,
       extract_row (mkCols 0 1 2) (row3 "Site C" "N/A" "5")
       = ([EvWarn loc], inr None).
Proof.
  split; [reflexivity|]. split; [reflexivity|]. split; [reflexivity|].
  exact (row_without_digits_skipped (mkCols 0 1 2) (row3 "Site C" "N/A" "5")
           (text_cell "N/A") eq_refl (or_introl eq_refl) eq_refl).
Defined.

Lemma counted_cell_parses_positive_witness :
  cell_nonzero (text_cell " 1,234 ") = true
  /\ exists n, int (clean_number (strip " 1,234 ")) = Some n /\ 0 < n.
Proof.
  split; [reflexivity|].
  exact (counted_cell_parses_positive (text_cell " 1,234 ") eq_refl).
Defined.

Lemma resolved_table_qualifies_witness :
  resolve_columns (th_texts hydrating_table) = ([], inr (mkCols 0 1 2))
  /\ qualifies hydrating_table = true.
Proof.
  split; [reflexivity|].
  exact (resolved_table_qualifies hydrating_table [] (mkCols 0 1 2) eq_refl).
Defined.

Lemma header_matching_ignores_case_witness :
  map upper mixed_headers = map upper site_headers
  /\ resolve_columns mixed_headers = ([], inr (mkCols 0 1 2))
  /\ qualifies (mkTable mixed_headers (rows_at hydrating_table)) = true.
Proof.
  assert (E : map upper mixed_headers = map upper site_headers) by reflexivity.
  destruct (header_matching_ignores_case mixed_headers site_headers
              (rows_at hydrating_table) (rows_at hydrating_table) E)
    as (R & _ & Q).
  split; [exact E|]. split.
  - exact (proj2 (R (mkCols 0 1 2)) eq_refl).
  - exact (eq_trans Q eq_refl).
Defined.

Lemma snapshot_replaces_table_witness :
  In (mkDbRow 1 1 1700000000 "Site A" 10 3 (Some "L001"))
     (committed (fst (save_to_database 1700000000 true sp_example
                        old_conn three_records)))
  /\ exists r, In r three_records /\ location r = "Site A".
Proof.
  assert (H : In (mkDbRow 1 1 1700000000 "Site A" 10 3 (Some "L001"))
                 (committed (fst (save_to_database 1700000000 true sp_example
                                    old_conn three_records))))
    by (left; reflexivity).
  split; [exact H|].
  destruct (proj1 (snapshot_replaces_table 1700000000 sp_example true old_conn
                     three_records) eq_refl) as [_ G].
  destruct (G _ H) as (_ & _ & r & I & L & _).
  exists r. split; [exact I | symmetry; exact L].
Defined.

Lemma tally_accounts_for_every_record_witness :
  snd (WriterFaults.save_to_database 1700000000 true sp_example
         WriterFaults.always WriterFaults.always WriterFaults.always
         old_conn three_records)
  = inr (mkTally 2 1 ["Nowhere"])
  /\ exists c t,
       WriterFaults.save_to_database 1700000000 true sp_example
         WriterFaults.always WriterFaults.always WriterFaults.always
         old_conn three_records = (c, inr t)
       /\ (inserted t + failed t
           + List.length (filter (no_row sp_example) (indexed three_records)))%nat
          = List.length three_records
       /\ List.length (committed c) = inserted t.
Proof.
  split; [reflexivity|].
  destruct (tally_accounts_for_every_record 1700000000 sp_example
              WriterFaults.always WriterFaults.always WriterFaults.always
              old_conn three_records
              (fun _ => eq_refl) (fun _ => eq_refl) (fun _ => eq_refl))
    as (c & t & E & A & B & _).
  exists c, t. split; [exact E|]. split; [exact A | exact B].
Defined.

Lemma failed_commit_counted_twice_witness :
  snd (WriterFaults.save_to_database 1700000000 true WriterFaults.sp_known
         WriterFaults.fails_at_second WriterFaults.always WriterFaults.always
         old_conn three_records)
  = inr (mkTally 3 1 [])
  /\ List.length
       (committed
          (fst (WriterFaults.save_to_database 1700000000 true
                  WriterFaults.sp_known WriterFaults.fails_at_second
                  WriterFaults.always WriterFaults.always
                  old_conn three_records))) = 2%nat
  /\ exists c',
       WriterFaults.save_record 1700000000 WriterFaults.sp_known
         WriterFaults.fails_at_second WriterFaults.always WriterFaults.always
         2 (mkRecord "Nowhere" 4 1) fresh_conn (mkTally 1 0 [])
       = (c', inr (mkTally 2 1 []))
       /\ committed c' = [].
Proof.
  split; [reflexivity|]. split; [reflexivity|].
  destruct (failed_commit_counted_twice 1700000000 WriterFaults.sp_known
              WriterFaults.fails_at_second WriterFaults.always
              WriterFaults.always 2 (mkRecord "Nowhere" 4 1) fresh_conn
              (mkTally 1 0 []) 2 "L001" eq_refl eq_refl eq_refl)
    as (c' & E & C & _).
  exists c'. split; [exact E | exact C].
Defined.

Lemma fatal_after_truncate_witness :
  snd (WriterFaults.save_to_database 1700000000 true
         WriterFaults.sp_second_raises WriterFaults.always WriterFaults.always
         WriterFaults.fails_at_second old_conn three_records)
  = inl (WriterFaults.RollbackFailed 2)
  /\ committed
       (fst (WriterFaults.save_to_database 1700000000 true
               WriterFaults.sp_second_raises WriterFaults.always
               WriterFaults.always WriterFaults.fails_at_second
               old_conn three_records))
     = [mkDbRow 1 1 1700000000 "Site A" 10 3 (Some "L001")]
  /\ committed old_conn <> []
  /\ exists idx,
       WriterFaults.fails_at_second idx = false /\ (1 <= idx <= 3)%nat.
Proof.
  split; [reflexivity|]. split; [reflexivity|]. split; [discriminate|].
  destruct (fatal_after_truncate 1700000000 WriterFaults.sp_second_raises true
              WriterFaults.always WriterFaults.always
              WriterFaults.fails_at_second old_conn _ three_records
              (WriterFaults.RollbackFailed 2) eq_refl)
    as [(F & _) | (idx & _ & _ & H & B & _)]; [discriminate F|].
  exists idx. split; [exact H | exact B].
Defined.

Lemma failed_run_keeps_table_witness :
  result (run bare_world) = inl CredentialsMissing
  /\ database (run bare_world) = db0 bare_world.
Proof.
  assert (E : result (run bare_world) = inl CredentialsMissing) by reflexivity.
  split; [exact E|].
  destruct (failed_run_keeps_table bare_world CredentialsMissing E)
    as (_ & _ & D & _).
  apply D. discriminate.
Defined.

Lemma run_success_stages_witness :
  result (run good_world) = inr (mkTally 5 0 [])
  /\ opens_page good_world = true
  /\ truncate_ok good_world = true.
Proof.
  assert (E : result (run good_world) = inr (mkTally 5 0 [])) by reflexivity.
  split; [exact E|].
  destruct (run_success_stages good_world _ E) as (O & _ & T & _).
  split; [exact O | exact T].
Defined.

End MoreInstances.
